(** * Fractal explorer: the Mandelbrot renderer and its viewport controller

    A shallow embedding of [src/FractalGenerator.tsx].  The component keeps a
    viewport (centre and zoom) and an iteration budget, renders the Mandelbrot
    set into an RGBA buffer and turns wheel and drag events into new
    viewports.

    TypeScript's [number] is IEEE 754 binary64.  The source is embedded once,
    over an interface [JSNumber] of the operations it uses on numbers, and
    the interface is instantiated twice:
    - [Binary64.number]: Rocq's primitive binary64 floats, the arithmetic the
      program really runs on;
    - [Exact.number]: the rationals, the arithmetic the program would run on
      without rounding, for the statements that hold "up to rounding".

    Numbers that only ever hold integers in the source (the canvas [width] and
    [height], the pixel counters [px] and [py], the [iteration] counter and
    the iteration budget typed into the number input) are integers here
    ([nat] and [Z]); they enter the arithmetic through [of_Z], which is exact
    below 2^53, the range in which a counter of the source counts.  A budget
    that is not an integer is outside the model. *)

From Stdlib Require Import ZArith QArith Qround Bool List Lia.
From Stdlib Require Import Floats.
From stdpp Require Import base list.

#[local] Set Warnings "-inexact-float".
#[local] Open Scope Z_scope.

(** ** The numbers of the source *)

Class JSNumber (T : Type) : Type := {
  add : T -> T -> T;              (* a + b *)
  sub : T -> T -> T;              (* a - b *)
  mul : T -> T -> T;              (* a * b *)
  div : T -> T -> T;              (* a / b *)
  lt : T -> T -> bool;            (* a < b, and b > a *)
  le : T -> T -> bool;            (* a <= b *)
  strict_eq : T -> T -> bool;     (* a === b *)
  of_Z : Z -> T;                  (* an integer literal or counter *)
  decimal : Q -> T;               (* a decimal literal, by its exact value *)
  Math_max : T -> T -> T;
  Math_min : T -> T -> T;
  Math_round : T -> T;
  ToUint8Clamp : T -> Z           (* a store into a Uint8ClampedArray *)
}.

Declare Scope num_scope.
Delimit Scope num_scope with num.
Infix "+" := add : num_scope.
Infix "-" := sub : num_scope.
Infix "*" := mul : num_scope.
Infix "/" := div : num_scope.
Infix "<?" := lt : num_scope.
Infix "<=?" := le : num_scope.
Infix "===" := strict_eq (at level 70, no associativity) : num_scope.
Notation "a >? b" := (lt b a) (only parsing) : num_scope.

Definition of_nat {T} `{JSNumber T} (n : nat) : T := of_Z (Z.of_nat n).

(** *** binary64 *)

Module Binary64.

Definition number : Type := float.

(** The double nearest to an integer. *)
Definition from_Z (z : Z) : float := SF2Prim (binary_normalize prec emax z 0 false).

(** A decimal literal whose numerator and denominator are below 2^53: the
    division of the two (exact) doubles is correctly rounded, so this is the
    double nearest to the literal. *)
Definition from_decimal (q : Q) : float :=
  PrimFloat.div (from_Z (Qnum q)) (from_Z (Zpos (Qden q))).

Definition is_neg_zero (a : float) : bool :=
  match Prim2SF a with S754_zero true => true | _ => false end.

(** [Math.max]: NaN if an argument is NaN, and +0 is larger than -0. *)
Definition max (a b : float) : float :=
  if is_nan a || is_nan b then nan
  else if PrimFloat.ltb a b then b
  else if PrimFloat.ltb b a then a
  else if is_neg_zero a then b else a.

(** [Math.min]: NaN if an argument is NaN, and -0 is smaller than +0. *)
Definition min (a b : float) : float :=
  if is_nan a || is_nan b then nan
  else if PrimFloat.ltb a b then a
  else if PrimFloat.ltb b a then b
  else if is_neg_zero a then a else b.

(** [Math.round]: the integer floor(x + 1/2), computed exactly; NaN, the
    infinities and the zeros are returned as they are, and a negative
    number that rounds to zero gives -0. *)
Definition round (a : float) : float :=
  match Prim2SF a with
  | S754_finite s m e =>
      if 0 <=? e then a
      else
        let sm := if s then Zneg m else Zpos m in
        let n := (2 * sm + 2 ^ (- e)) / 2 ^ (1 - e) in
        if (n =? 0) && s then neg_zero else from_Z n
  | _ => a
  end.

(** The conversion of a store into a [Uint8ClampedArray]: NaN gives 0, the
    value is clamped to [0, 255] and rounded to the nearest integer, ties
    to even. *)
Definition to_uint8_clamp (a : float) : Z :=
  match Prim2SF a with
  | S754_nan | S754_zero _ => 0
  | S754_infinity s => if s then 0 else 255
  | S754_finite true _ _ => 0
  | S754_finite false m e =>
      if 0 <=? e then Z.min 255 (Zpos m * 2 ^ e)
      else
        let f := Zpos m / 2 ^ (- e) in
        let r := 2 * (Zpos m mod 2 ^ (- e)) in
        let n := match r ?= 2 ^ (- e) with
                 | Lt => f
                 | Gt => f + 1
                 | Eq => if Z.even f then f else f + 1
                 end in
        Z.min 255 n
  end.

#[global] Instance binary64 : JSNumber number := {|
  add := PrimFloat.add; sub := PrimFloat.sub;
  mul := PrimFloat.mul; div := PrimFloat.div;
  lt := PrimFloat.ltb; le := PrimFloat.leb; strict_eq := PrimFloat.eqb;
  of_Z := from_Z; decimal := from_decimal;
  Math_max := max; Math_min := min;
  Math_round := round; ToUint8Clamp := to_uint8_clamp
|}.

End Binary64.

(** *** exact arithmetic *)

Module Exact.

Definition number : Type := Q.

Definition ltb (a b : Q) : bool := negb (Qle_bool b a).

Definition max (a b : Q) : Q := if ltb a b then b else a.
Definition min (a b : Q) : Q := if ltb a b then a else b.

Definition round (a : Q) : Q := inject_Z (Qfloor (a + (1 # 2))).

Definition to_uint8_clamp (a : Q) : Z :=
  let f := Qfloor a in
  let n := match (a - inject_Z f ?= 1 # 2)%Q with
           | Lt => f
           | Gt => f + 1
           | Eq => if Z.even f then f else f + 1
           end in
  Z.max 0 (Z.min 255 n).

#[global] Instance exact : JSNumber number := {|
  add := Qplus; sub := Qminus; mul := Qmult; div := Qdiv;
  lt := ltb; le := Qle_bool; strict_eq := Qeq_bool;
  of_Z := inject_Z; decimal := fun q => q;
  Math_max := max; Math_min := min;
  Math_round := round; ToUint8Clamp := to_uint8_clamp
|}.

End Exact.

(** ** The component *)

Section Component.

Context {T : Type} `{JSNumber T}.

#[local] Open Scope num_scope.

(** Konva's [Vector2d], the pointer position on the stage. *)
Record Vector2d : Type := { pos_x : T; pos_y : T }.

(** The props ([width], [height]), the state hooks and the ref of one
    mounted [FractalGenerator]. *)
Record FractalGenerator : Type := {
  width : nat;
  height : nat;
  maxIterations : Z;
  centerX : T;
  centerY : T;
  zoom : T;
  isPanning : bool;
  lastMousePositionRef : option Vector2d
}.

(** The component as it is mounted, before any event: the initial values of
    the hooks.  ([image] and [cursor] only serve the display and are left
    out.) *)
Definition mount (width height : nat) : FractalGenerator := {|
  width := width;
  height := height;
  maxIterations := 100;
  centerX := decimal (- 6 # 10);
  centerY := of_Z 0;
  zoom := of_Z 1;
  isPanning := false;
  lastMousePositionRef := None
|}.

(** *** Rendering: [generateFractal] *)

(** Lines 43 to 50: the complex-plane point of the pixel [(px, py)]. *)
Definition pixelToComplex (width height : nat)
    (currentCenterX currentCenterY currentZoom : T) (px py : nat) : T * T :=
  let scale := of_Z 4 / (of_nat width * currentZoom) in
  let offsetX := currentCenterX - (of_nat width / of_Z 2) * scale in
  let offsetY := currentCenterY - (of_nat height / of_Z 2) * scale in
  let x := of_nat px * scale + offsetX in
  let y := of_nat py * scale + offsetY in
  (x, y).

(** Lines 52 to 61: the escape loop.  [fuel] bounds the number of turns of
    the [while]; [None] is a loop that was cut short. *)
Fixpoint escapeLoop (fuel : nat) (x y : T) (currentMaxIterations : Z)
    (zx zy : T) (iteration : Z) : option Z :=
  if (zx * zx + zy * zy <=? of_Z 4) && (iteration <? currentMaxIterations)%Z then
    match fuel with
    | O => None
    | S fuel' =>
        let xtemp := zx * zx - zy * zy + x in
        let zy' := of_Z 2 * zx * zy + y in
        escapeLoop fuel' x y currentMaxIterations xtemp zy' (iteration + 1)%Z
    end
  else Some iteration.

(** The loop from [zx = 0], [zy = 0], [iteration = 0]; the guard
    [iteration < currentMaxIterations] allows at most
    [currentMaxIterations] turns. *)
Definition escapeTime (x y : T) (currentMaxIterations : Z) : option Z :=
  escapeLoop (Z.to_nat currentMaxIterations) x y currentMaxIterations
    (of_Z 0) (of_Z 0) 0%Z.

(** Lines 81 to 104. *)
Definition hue2rgb (p q t : T) : T :=
  let t := if t <? of_Z 0 then t + of_Z 1 else t in
  let t := if t >? of_Z 1 then t - of_Z 1 else t in
  if t <? of_Z 1 / of_Z 6 then p + (q - p) * of_Z 6 * t
  else if t <? of_Z 1 / of_Z 2 then q
  else if t <? of_Z 2 / of_Z 3 then p + (q - p) * (of_Z 2 / of_Z 3 - t) * of_Z 6
  else p.

Definition hslToRgb (h s l : T) : T * T * T :=
  let '(r, g, b) :=
    if s === of_Z 0 then (l, l, l)
    else
      let q := if l <? decimal (1 # 2) then l * (of_Z 1 + s) else l + s - l * s in
      let p := of_Z 2 * l - q in
      (hue2rgb p q (h + of_Z 1 / of_Z 3),
       hue2rgb p q h,
       hue2rgb p q (h - of_Z 1 / of_Z 3)) in
  (Math_round (r * of_Z 255), Math_round (g * of_Z 255), Math_round (b * of_Z 255)).

(** Line 64: the colour of a pixel from its iteration count. *)
Definition pixelColor (iteration currentMaxIterations : Z) : T * T * T :=
  if (iteration =? currentMaxIterations)%Z then (of_Z 0, of_Z 0, of_Z 0)
  else hslToRgb (of_Z iteration / of_Z currentMaxIterations) (of_Z 1) (decimal (1 # 2)).

(** [imageData.data], a [Uint8ClampedArray]: a store at an index of the
    array converts the value to a byte, a store past its end is ignored. *)
Definition store (data : list Z) (i : nat) (v : T) : list Z :=
  <[i := ToUint8Clamp v]> data.

(** Lines 63 to 68: the four stores of one pixel. *)
Definition putPixel (width : nat) (data : list Z) (px py : nat)
    (color : T * T * T) : list Z :=
  let pixelIndex := ((py * width + px) * 4)%nat in
  let '(r, g, b) := color in
  let data := store data pixelIndex r in
  let data := store data (pixelIndex + 1) g in
  let data := store data (pixelIndex + 2) b in
  store data (pixelIndex + 3) (of_Z 255).

(** The body of the two [for] loops at one pixel.  A pixel whose escape
    loop was cut short is left as it is. *)
Definition renderPixel (width height : nat)
    (currentCenterX currentCenterY currentZoom : T) (currentMaxIterations : Z)
    (px : nat) (data : list Z) (py : nat) : list Z :=
  let '(x, y) :=
    pixelToComplex width height currentCenterX currentCenterY currentZoom px py in
  match escapeTime x y currentMaxIterations with
  | Some iteration =>
      putPixel width data px py (pixelColor iteration currentMaxIterations)
  | None => data
  end.

(** [generateFractal]: the buffer that [ctx.putImageData] receives.
    [createImageData] gives [width * height * 4] zero bytes; [px] runs over
    the columns in the outer loop, [py] over the rows in the inner one. *)
Definition generateFractal (width height : nat)
    (currentCenterX currentCenterY currentZoom : T) (currentMaxIterations : Z)
    : list Z :=
  foldl
    (fun data px =>
       foldl
         (renderPixel width height currentCenterX currentCenterY currentZoom
            currentMaxIterations px)
         data (seq 0 height))
    (replicate (width * height * 4) 0%Z)
    (seq 0 width).

(** Lines 20 to 22: the effect that renders the current state. *)
Definition renderEffect (c : FractalGenerator) : list Z :=
  generateFractal (width c) (height c) (centerX c) (centerY c) (zoom c)
    (maxIterations c).

(** *** The viewport controller *)

(** Lines 106 to 132, the wheel handler.  [pointerPosition] is what
    [stage.getPointerPosition()] returns, [None] for [null]. *)
Definition handleZoom (c : FractalGenerator) (deltaY : T)
    (pointerPosition : option Vector2d) : FractalGenerator :=
  let scaleBy := decimal (11 # 10) in
  let oldScale := zoom c in
  match pointerPosition with
  | None => c
  | Some pointerPosition =>
      let mousePointTo := {|
        pos_x := pos_x pointerPosition / of_nat (width c);
        pos_y := pos_y pointerPosition / of_nat (height c)
      |} in
      let newScale :=
        if deltaY >? of_Z 0 then oldScale / scaleBy else oldScale * scaleBy in
      let newScale :=
        Math_max (decimal (1 # 100000)) (Math_min (of_Z 1000000) newScale) in
      let newCenterX :=
        centerX c
        + (pos_x mousePointTo - decimal (1 # 2))
          * (of_Z 4 / (of_nat (width c) * oldScale)) * (oldScale - newScale) in
      let newCenterY :=
        centerY c
        + (pos_y mousePointTo - decimal (1 # 2))
          * (of_Z 4 / (of_nat (height c) * oldScale)) * (oldScale - newScale) in
      {| width := width c; height := height c;
         maxIterations := maxIterations c;
         centerX := newCenterX; centerY := newCenterY; zoom := newScale;
         isPanning := isPanning c;
         lastMousePositionRef := lastMousePositionRef c |}
  end.

(** Lines 134 to 143. *)
Definition handleMouseDown (c : FractalGenerator)
    (pos : option Vector2d) : FractalGenerator :=
  {| width := width c; height := height c;
     maxIterations := maxIterations c;
     centerX := centerX c; centerY := centerY c; zoom := zoom c;
     isPanning := true;
     lastMousePositionRef :=
       match pos with
       | Some pos => Some pos
       | None => lastMousePositionRef c
       end |}.

(** Lines 145 to 164. *)
Definition handleMouseMove (c : FractalGenerator)
    (pointerPosition : option Vector2d) : FractalGenerator :=
  match isPanning c, lastMousePositionRef c, pointerPosition with
  | true, Some last, Some pointerPosition =>
      let scale := of_Z 4 / (of_nat (width c) * zoom c) in
      let dx := (pos_x pointerPosition - pos_x last) * scale in
      let dy := (pos_y pointerPosition - pos_y last) * scale in
      let sensitivity := decimal (1 # 2) in
      {| width := width c; height := height c;
         maxIterations := maxIterations c;
         centerX := centerX c - dx * sensitivity;
         centerY := centerY c - dy * sensitivity;
         zoom := zoom c;
         isPanning := isPanning c;
         lastMousePositionRef := Some pointerPosition |}
  | _, _, _ => c
  end.

(** Lines 166 to 169, also the handler of [onMouseLeave]. *)
Definition handleMouseUp (c : FractalGenerator) : FractalGenerator :=
  {| width := width c; height := height c;
     maxIterations := maxIterations c;
     centerX := centerX c; centerY := centerY c; zoom := zoom c;
     isPanning := false;
     lastMousePositionRef := None |}.

(** Line 179, the [onChange] of the number input: [value] is
    [Number(e.target.value)], an integer of any sign. *)
Definition setMaxIterations (c : FractalGenerator) (value : Z)
    : FractalGenerator :=
  {| width := width c; height := height c;
     maxIterations := value;
     centerX := centerX c; centerY := centerY c; zoom := zoom c;
     isPanning := isPanning c;
     lastMousePositionRef := lastMousePositionRef c |}.

(** The events of the stage and of the input, and the component after one
    of them and after a sequence of them. *)
Inductive Event : Type :=
| Wheel (deltaY : T) (pointerPosition : option Vector2d)
| MouseDown (pos : option Vector2d)
| MouseMove (pointerPosition : option Vector2d)
| MouseUp
| MouseLeave
| Change (value : Z).

Definition handle (c : FractalGenerator) (e : Event) : FractalGenerator :=
  match e with
  | Wheel deltaY pointerPosition => handleZoom c deltaY pointerPosition
  | MouseDown pos => handleMouseDown c pos
  | MouseMove pointerPosition => handleMouseMove c pointerPosition
  | MouseUp | MouseLeave => handleMouseUp c
  | Change value => setMaxIterations c value
  end.

Definition run (c : FractalGenerator) (events : list Event) : FractalGenerator :=
  foldl handle c events.

End Component.

Arguments Vector2d T : clear implicits.
Arguments Event T : clear implicits.
Arguments FractalGenerator T : clear implicits.

(** ** Notions used in the statements *)

Section Notions.

Context {T : Type} `{JSNumber T}.

#[local] Open Scope num_scope.

(** The pointer over the pixel [(px, py)]. *)
Definition pointerAt (px py : nat) : Vector2d T :=
  {| pos_x := of_nat px; pos_y := of_nat py |}.

(** The complex-plane point under a pixel in the viewport of a component. *)
Definition complexUnder (c : FractalGenerator T) (px py : nat) : T * T :=
  pixelToComplex (width c) (height c) (centerX c) (centerY c) (zoom c) px py.

(** The zoom bounds of line 122. *)
Definition zoomInRange (z : T) : Prop :=
  (decimal (1 # 100000) <=? z) = true /\ (z <=? of_Z 1000000) = true.

(** The new centre of a zoom gesture as section 4.5 of the specification
    words it: one [oldScale = 4.0 / (width * oldZoom)] for both axes. *)
Definition specZoomCenter (c : FractalGenerator T) (deltaY : T)
    (pointerPosition : Vector2d T) : T * T :=
  let oldZoom := zoom c in
  let mousePointTo := {|
    pos_x := pos_x pointerPosition / of_nat (width c);
    pos_y := pos_y pointerPosition / of_nat (height c)
  |} in
  let newZoom :=
    if deltaY >? of_Z 0 then oldZoom / decimal (11 # 10)
    else oldZoom * decimal (11 # 10) in
  let newZoom :=
    Math_max (decimal (1 # 100000)) (Math_min (of_Z 1000000) newZoom) in
  let oldScale := of_Z 4 / (of_nat (width c) * oldZoom) in
  (centerX c + (pos_x mousePointTo - decimal (1 # 2)) * oldScale * (oldZoom - newZoom),
   centerY c + (pos_y mousePointTo - decimal (1 # 2)) * oldScale * (oldZoom - newZoom)).

(** The four bytes that the loops store for the pixel [(px, py)]. *)
Definition pixelBytes (width height : nat) (cx cy z : T) (m : Z)
    (px py : nat) : option (Z * Z * Z * Z) :=
  let '(x, y) := pixelToComplex width height cx cy z px py in
  match escapeTime x y m with
  | Some iteration =>
      let '(r, g, b) := pixelColor iteration m in
      Some (ToUint8Clamp r, ToUint8Clamp g, ToUint8Clamp b,
            ToUint8Clamp (of_Z 255))
  | None => None
  end.

(** The pixel [(px, py)] of a buffer holds its four bytes. *)
Definition painted (width height : nat) (cx cy z : T) (m : Z)
    (data : list Z) (px py : nat) : Prop :=
  exists b0 b1 b2 b3 : Z,
    pixelBytes width height cx cy z m px py = Some (b0, b1, b2, b3)
    /\ data !! ((py * width + px) * 4)%nat = Some b0
    /\ data !! ((py * width + px) * 4 + 1)%nat = Some b1
    /\ data !! ((py * width + px) * 4 + 2)%nat = Some b2
    /\ data !! ((py * width + px) * 4 + 3)%nat = Some b3.

(** The buffer while the loops run: it keeps its length, and the in-range
    pixels of the set [S] are painted. *)
Definition rendering (width height : nat) (cx cy z : T) (m : Z)
    (S : nat -> nat -> Prop) (data : list Z) : Prop :=
  length data = (width * height * 4)%nat
  /\ forall px py : nat,
       S px py -> (px < width)%nat -> (py < height)%nat ->
       painted width height cx cy z m data px py.

End Notions.

(** ** The rest of the component *)

Section Display.

Context {T : Type} `{JSNumber T}.

#[local] Open Scope num_scope.

(** [App.tsx]: the one component of the page, 800 by 600 pixels. *)
Definition App : FractalGenerator T := mount 800 600.

(** The values of the [cursor] hook: ['default'], ['grab'], ['grabbing']. *)
Inductive Cursor : Type := cursor_default | cursor_grab | cursor_grabbing.

(** Lines 24 to 26: the cursor that the effect on [isPanning] sets. *)
Definition cursor (c : FractalGenerator T) : Cursor :=
  if isPanning c then cursor_grabbing else cursor_grab.

(** The events that press or release the button: [onMouseDown],
    [onMouseUp], [onMouseLeave]. *)
Definition isButtonEvent (e : Event T) : bool :=
  match e with
  | MouseDown _ | MouseUp | MouseLeave => true
  | _ => false
  end.

Definition isChangeEvent (e : Event T) : bool :=
  match e with
  | Change _ => true
  | _ => false
  end.

(** One turn of the body of the [while] of lines 56 to 61 on [z = (zx, zy)],
    and [z] after [k] turns from 0. *)
Definition escapeStep (x y : T) (z : T * T) : T * T :=
  let '(zx, zy) := z in
  (zx * zx - zy * zy + x, of_Z 2 * zx * zy + y).

Definition orbit (x y : T) (k : nat) : T * T :=
  Nat.iter k (escapeStep x y) (of_Z 0, of_Z 0).

(** The first test of the guard of line 56. *)
Definition withinRadius (z : T * T) : bool :=
  let '(zx, zy) := z in zx * zx + zy * zy <=? of_Z 4.

(** A component that is not panning holds no anchor in its ref. *)
Definition anchored (c : FractalGenerator T) : Prop :=
  isPanning c = false -> lastMousePositionRef c = None.

(** The scale of lines 43 and 154: the complex-plane length of one pixel. *)
Definition pixelScale (c : FractalGenerator T) : T :=
  of_Z 4 / (of_nat (width c) * zoom c).

End Display.

(** A finite, nonzero number in the specification of the floats. *)
Definition SFfinite (x : spec_float) : bool :=
  match x with S754_finite _ _ _ => true | _ => false end.

(** Two binary64 numbers agree within the relative tolerance [tol]. *)
Definition relativelyClose (tol a b : float) : bool :=
  PrimFloat.leb (abs (a - b))
    (tol * Binary64.max (abs a) (abs b))%float.

(** A pan on binary64: a pointer-down over the pixel [(x0, y0)], a move to
    [(x1, y1)] and a move back bring the centre back within a relative
    tolerance of 1e-15. *)
Definition panRoundTripClose (c : FractalGenerator float) (x0 y0 x1 y1 : nat) : bool :=
  let c' := run c [MouseDown (Some (pointerAt x0 y0));
                   MouseMove (Some (pointerAt x1 y1));
                   MouseMove (Some (pointerAt x0 y0))] in
  relativelyClose 1e-15 (centerX c') (centerX c)
  && relativelyClose 1e-15 (centerY c') (centerY c).

(** ** The numbers: checks and facts *)

(** The literals of the source, as the binary64 instance reads them. *)
Example literal_scaleBy : Binary64.from_decimal (11 # 10) = 1.1%float.
Proof. reflexivity. Qed.

Example literal_minZoom : Binary64.from_decimal (1 # 100000) = 0.00001%float.
Proof. reflexivity. Qed.

Example literal_maxZoom : Binary64.from_Z 1000000 = 1000000%float.
Proof. reflexivity. Qed.

Example literal_half : Binary64.from_decimal (1 # 2) = 0.5%float.
Proof. reflexivity. Qed.

Example round_half_up : Binary64.round 2.5%float = 3%float.
Proof. reflexivity. Qed.

Example round_negative_half : Binary64.round (-2.5)%float = (-2)%float.
Proof. reflexivity. Qed.

Example round_below_half : Binary64.round 0.49999999999999994%float = 0%float.
Proof. reflexivity. Qed.

Example round_to_neg_zero : Binary64.round (-0.2)%float = neg_zero.
Proof. reflexivity. Qed.

Example clamp_tie_even :
  map Binary64.to_uint8_clamp [0.5; 1.5; 2.5; 254.5; 255.5; 300; -3; nan]%float
  = [0; 2; 2; 254; 255; 255; 0; 0].
Proof. reflexivity. Qed.


(** *** IEEE 754 facts, on the specification of the primitive floats *)

Section SpecFloatFacts.

Lemma iter_shr_1_nonneg (p : positive) :
  forall mrs, 0 <= shr_m mrs -> 0 <= shr_m (SpecFloat.iter_pos shr_1 p mrs).
Proof.
  assert (forall mrs, 0 <= shr_m mrs -> 0 <= shr_m (shr_1 mrs)) as Hone.
  { intros [[|[q|q|]|q] r s] Hm; simpl in *; lia. }
  induction p as [p IH|p IH|]; intros mrs Hm; simpl; auto.
Qed.

Lemma shr_fexp_nonneg (m e : Z) (l : location) :
  0 <= m -> 0 <= shr_m (fst (shr_fexp prec emax m e l)).
Proof.
  intros Hm. unfold shr_fexp, shr.
  assert (0 <= shr_m (shr_record_of_loc m l)) as Hrec.
  { destruct l as [|[]]; simpl; lia. }
  destruct (fexp prec emax (Zdigits2 m + e) - e); simpl; try done.
  by apply iter_shr_1_nonneg.
Qed.

Lemma round_nearest_even_nonneg (mx : Z) (lx : location) :
  0 <= mx -> 0 <= round_nearest_even mx lx.
Proof.
  intros Hm. destruct lx as [|[]]; simpl; try lia.
  destruct (Z.even mx); lia.
Qed.

Lemma binary_round_aux_not_nan (sx : bool) (mx ex : Z) (lx : location) :
  0 <= mx -> binary_round_aux prec emax sx mx ex lx <> S754_nan.
Proof.
  intros Hm. unfold binary_round_aux.
  pose proof (shr_fexp_nonneg mx ex lx Hm) as H1.
  destruct (shr_fexp prec emax mx ex lx) as [mrs' e']. simpl in H1.
  pose proof (shr_fexp_nonneg _ e' loc_Exact
                (round_nearest_even_nonneg _ (loc_of_shr_record mrs') H1)) as H2.
  destruct (shr_fexp prec emax _ e' loc_Exact) as [mrs'' e'']. simpl in H2.
  destruct (shr_m mrs'') as [|q|q]; [done| |lia].
  by destruct (e'' <=? emax - prec).
Qed.

Lemma SF64mul_not_nan (x y : spec_float) :
  x <> S754_nan -> SFfinite y = true -> SF64mul x y <> S754_nan.
Proof.
  intros Hx Hy. destruct y as [| | |s m e]; try done.
  destruct x as [sx|sx| |sx mx ex]; try done.
  apply binary_round_aux_not_nan. lia.
Qed.

Lemma SF64div_not_nan (x y : spec_float) :
  x <> S754_nan -> SFfinite y = true -> SF64div x y <> S754_nan.
Proof.
  intros Hx Hy. destruct y as [| | |s m e]; try done.
  destruct x as [sx|sx| |sx mx ex]; try done.
  unfold SF64div, SFdiv, SFdiv_core_binary.
  set (m' := match _ - _ - _ with Z0 => Z.pos mx | Z.pos _ => _ | Z.neg _ => 0 end).
  assert (0 <= m') as Hm'.
  { subst m'. destruct (_ - _ - _); try lia. apply Z.shiftl_nonneg. lia. }
  pose proof (Z.div_pos m' (Z.pos m) Hm' eq_refl) as Hq.
  unfold Z.div in Hq.
  destruct (Z.div_eucl m' (Z.pos m)) as [q r].
  by apply binary_round_aux_not_nan.
Qed.

Lemma SFcompare_antisym (x y : spec_float) :
  SFcompare y x = option_map CompOpp (SFcompare x y).
Proof.
  destruct x as [sx|sx| |sx mx ex], y as [sy|sy| |sy my ey];
    try (destruct sx); try (destruct sy); try reflexivity; simpl;
    rewrite (Z.compare_antisym ex ey); destruct (ex ?= ey); simpl;
    try reflexivity;
    rewrite <- (Pos.compare_cont_antisym _ _ Eq); simpl;
    try rewrite CompOpp_involutive; reflexivity.
Qed.

Lemma SFcompare_refl (x : spec_float) :
  x <> S754_nan -> SFcompare x x = Some Eq.
Proof.
  intros Hx. destruct x as [sx|sx| |sx mx ex]; try done; simpl.
  - by destruct sx.
  - rewrite Z.compare_refl.
    change (Pos.compare_cont Eq mx mx) with (mx ?= mx)%positive.
    rewrite Pos.compare_refl. by destruct sx.
Qed.

Lemma SFcompare_Some (x y : spec_float) :
  x <> S754_nan -> y <> S754_nan -> exists c, SFcompare x y = Some c.
Proof.
  intros Hx Hy.
  destruct x as [sx|sx| |sx mx ex], y as [sy|sy| |sy my ey]; try done;
    simpl; eauto.
Qed.

End SpecFloatFacts.

(** *** binary64 facts *)

Section Binary64Facts.

Import Binary64.

Lemma is_nan_false (a : float) : is_nan a = false <-> Prim2SF a <> S754_nan.
Proof.
  unfold is_nan. rewrite FloatAxioms.eqb_spec. unfold SFeqb. split.
  - intros Hn Ha. rewrite Ha in Hn. done.
  - intros Ha. by rewrite SFcompare_refl.
Qed.

Lemma leb_true_not_nan (a b : float) :
  PrimFloat.leb a b = true -> is_nan a = false /\ is_nan b = false.
Proof.
  rewrite leb_spec, !is_nan_false. unfold SFleb. intros Hle.
  split; intros Hnan; rewrite Hnan in Hle; [done|].
  by destruct (Prim2SF a).
Qed.

Lemma leb_refl (a : float) : is_nan a = false -> PrimFloat.leb a a = true.
Proof.
  rewrite is_nan_false, leb_spec. unfold SFleb. intros Ha.
  by rewrite SFcompare_refl.
Qed.

Lemma ltb_leb (a b : float) : PrimFloat.ltb a b = true -> PrimFloat.leb a b = true.
Proof.
  rewrite ltb_spec, leb_spec. unfold SFltb, SFleb.
  by destruct (SFcompare _ _) as [[]|].
Qed.

Lemma leb_not_ltb (a b : float) : PrimFloat.leb a b = true -> PrimFloat.ltb b a = false.
Proof.
  rewrite ltb_spec, leb_spec. unfold SFltb, SFleb.
  rewrite (SFcompare_antisym (Prim2SF a) (Prim2SF b)).
  by destruct (SFcompare _ _) as [[]|].
Qed.

Lemma not_ltb_leb (a b : float) :
  is_nan a = false -> is_nan b = false ->
  PrimFloat.ltb a b = false -> PrimFloat.ltb b a = false ->
  PrimFloat.leb a b = true /\ PrimFloat.leb b a = true.
Proof.
  rewrite !is_nan_false, !ltb_spec, !leb_spec. unfold SFltb, SFleb.
  intros Ha Hb.
  rewrite (SFcompare_antisym (Prim2SF a) (Prim2SF b)).
  destruct (SFcompare_Some _ _ Ha Hb) as [c ->].
  by destruct c.
Qed.

Lemma max_bounds (a b : float) :
  is_nan a = false -> is_nan b = false ->
  (max a b = a \/ max a b = b)
  /\ PrimFloat.leb a (max a b) = true /\ PrimFloat.leb b (max a b) = true.
Proof.
  intros Ha Hb. unfold max. rewrite Ha, Hb. simpl.
  destruct (PrimFloat.ltb a b) eqn:Hab.
  { auto using ltb_leb, leb_refl. }
  destruct (PrimFloat.ltb b a) eqn:Hba.
  { auto using ltb_leb, leb_refl. }
  destruct (not_ltb_leb a b Ha Hb Hab Hba) as [Hle Hge].
  destruct (is_neg_zero a); auto using leb_refl.
Qed.

Lemma min_bounds (a b : float) :
  is_nan a = false -> is_nan b = false ->
  (min a b = a \/ min a b = b)
  /\ PrimFloat.leb (min a b) a = true /\ PrimFloat.leb (min a b) b = true.
Proof.
  intros Ha Hb. unfold min. rewrite Ha, Hb. simpl.
  destruct (PrimFloat.ltb a b) eqn:Hab.
  { auto using ltb_leb, leb_refl. }
  destruct (PrimFloat.ltb b a) eqn:Hba.
  { auto using ltb_leb, leb_refl. }
  destruct (not_ltb_leb a b Ha Hb Hab Hba) as [Hle Hge].
  destruct (is_neg_zero a); auto using leb_refl.
Qed.

(** Line 122 brings every number but NaN into the zoom range. *)
Lemma clamp_zoomInRange (newScale : float) :
  is_nan newScale = false ->
  zoomInRange (Math_max (decimal (1 # 100000)) (Math_min (of_Z 1000000) newScale)).
Proof.
  intros Hnan. unfold zoomInRange.
  change (@Math_max float _) with max. change (@Math_min float _) with min.
  change (@le float _) with PrimFloat.leb.
  set (lo := decimal (1 # 100000)). set (hi := of_Z 1000000).
  assert (is_nan lo = false) as Hlo by reflexivity.
  assert (is_nan hi = false) as Hhi by reflexivity.
  assert (PrimFloat.leb lo hi = true) as Hlohi by reflexivity.
  destruct (min_bounds hi newScale Hhi Hnan) as (Hmin & Hmin_hi & _).
  assert (is_nan (min hi newScale) = false) as Hm by (by destruct Hmin as [-> | ->]).
  destruct (max_bounds lo (min hi newScale) Hlo Hm) as (Hmax & Hmax_lo & _).
  split; [done|].
  by destruct Hmax as [-> | ->].
Qed.

Lemma mul_scaleBy_not_nan (oldScale : float) :
  is_nan oldScale = false -> is_nan (oldScale * decimal (11 # 10))%num = false.
Proof.
  rewrite !is_nan_false. intros Hold.
  change (@mul float _) with PrimFloat.mul. rewrite mul_spec.
  by apply SF64mul_not_nan.
Qed.

Lemma div_scaleBy_not_nan (oldScale : float) :
  is_nan oldScale = false -> is_nan (oldScale / decimal (11 # 10))%num = false.
Proof.
  rewrite !is_nan_false. intros Hold.
  change (@div float _) with PrimFloat.div. rewrite div_spec.
  by apply SF64div_not_nan.
Qed.

End Binary64Facts.

(** ** The renderer *)

Section RenderFacts.
Context {T : Type} `{JSNumber T}.

Lemma escapeLoop_terminates (fuel : nat) :
  forall (x y : T) (currentMaxIterations : Z) (zx zy : T) (iteration : Z),
    (Z.to_nat (currentMaxIterations - iteration) <= fuel)%nat ->
    exists n : Z,
      escapeLoop fuel x y currentMaxIterations zx zy iteration = Some n
      /\ (iteration <= n)%Z
      /\ (n <= Z.max iteration currentMaxIterations)%Z.
Proof.
  induction fuel as [|fuel IH]; intros x y m zx zy it Hfuel; simpl.
  - destruct (le _ _); simpl.
    + destruct (Z.ltb_spec it m); [lia|]. exists it. split; [done|lia].
    + exists it. split; [done|lia].
  - destruct (le _ _); simpl.
    + destruct (Z.ltb_spec it m).
      * destruct (IH x y m (add (sub (mul zx zx) (mul zy zy)) x)
                    (add (mul (mul (of_Z 2) zx) zy) y) (it + 1)%Z)
          as (n & Hn & Hlo & Hhi); [lia|].
        exists n. split; [done|lia].
      * exists it. split; [done|lia].
    + exists it. split; [done|lia].
Qed.

Lemma escapeTime_terminates (x y : T) (currentMaxIterations : Z) :
  exists n : Z,
    escapeTime x y currentMaxIterations = Some n
    /\ (0 <= n)%Z /\ (n <= Z.max 0 currentMaxIterations)%Z.
Proof.
  unfold escapeTime.
  apply escapeLoop_terminates. lia.
Qed.

Lemma putPixel_length (width : nat) (data : list Z) (px py : nat) (color : T * T * T) :
  length (putPixel width data px py color) = length data.
Proof.
  destruct color as [[r g] b]. unfold putPixel, store.
  by rewrite !length_insert.
Qed.

Lemma putPixel_lookup_other (width : nat) (data : list Z) (px py : nat)
    (color : T * T * T) (j : nat) :
  (j < (py * width + px) * 4 \/ (py * width + px) * 4 + 4 <= j)%nat ->
  putPixel width data px py color !! j = data !! j.
Proof.
  intros Hj. destruct color as [[r g] b]. unfold putPixel, store.
  rewrite !list_lookup_insert_ne by lia. done.
Qed.

Lemma putPixel_lookup (width : nat) (data : list Z) (px py : nat) (r g b : T) :
  ((py * width + px) * 4 + 4 <= length data)%nat ->
  let data' := putPixel width data px py (r, g, b) in
  data' !! ((py * width + px) * 4)%nat = Some (ToUint8Clamp r)
  /\ data' !! ((py * width + px) * 4 + 1)%nat = Some (ToUint8Clamp g)
  /\ data' !! ((py * width + px) * 4 + 2)%nat = Some (ToUint8Clamp b)
  /\ data' !! ((py * width + px) * 4 + 3)%nat = Some (ToUint8Clamp (of_Z 255)).
Proof.
  intros Hlen. unfold putPixel, store. cbv zeta.
  repeat split.
  - rewrite !list_lookup_insert_ne by lia.
    apply list_lookup_insert_eq. lia.
  - rewrite !list_lookup_insert_ne by lia.
    apply list_lookup_insert_eq. rewrite length_insert. lia.
  - rewrite !list_lookup_insert_ne by lia.
    apply list_lookup_insert_eq. rewrite !length_insert. lia.
  - apply list_lookup_insert_eq. rewrite !length_insert. lia.
Qed.

Lemma pixel_index_bound (width height px py : nat) :
  (px < width)%nat -> (py < height)%nat ->
  ((py * width + px) * 4 + 4 <= width * height * 4)%nat.
Proof. intros Hx Hy. nia. Qed.

Lemma pixel_index_apart (width px py px' py' : nat) :
  (px < width)%nat -> (px' < width)%nat -> (px, py) <> (px', py') ->
  (py * width + px <> py' * width + px')%nat.
Proof.
  intros Hx Hx' Hne Heq.
  assert (py = py') as -> by nia.
  assert (px = px') as -> by lia.
  done.
Qed.

Section Loops.
Variables (width height : nat) (cx cy z : T) (m : Z).

Let step := renderPixel width height cx cy z m.
Let inv := rendering width height cx cy z m.

Lemma renderPixel_rendering (S : nat -> nat -> Prop) (data : list Z) (px py : nat) :
  (px < width)%nat -> (py < height)%nat ->
  inv S data ->
  inv (fun a b => S a b \/ (a = px /\ b = py)) (step px data py).
Proof.
  intros Hx Hy [Hlen Hpainted].
  pose proof (pixel_index_bound width height px py Hx Hy) as Hbound.
  unfold step, renderPixel.
  destruct (pixelToComplex width height cx cy z px py) as [x y] eqn:Hxy.
  destruct (escapeTime_terminates x y m) as (it & Hit & _).
  rewrite Hit.
  destruct (pixelColor it m) as [[r g] b] eqn:Hcolor.
  split; [by rewrite putPixel_length|].
  intros a b' HS Ha Hb.
  destruct (decide ((a, b') = (px, py))) as [Heq|Hne].
  - injection Heq as -> ->.
    destruct (putPixel_lookup width data px py r g b) as (H0 & H1 & H2 & H3);
      [lia|].
    exists (ToUint8Clamp r), (ToUint8Clamp g), (ToUint8Clamp b),
      (ToUint8Clamp (of_Z 255)).
    unfold pixelBytes. rewrite Hxy, Hit, Hcolor. done.
  - destruct HS as [HS|[-> ->]]; [|done].
    destruct (Hpainted a b' HS Ha Hb) as (b0 & b1 & b2 & b3 & Hbytes & H0 & H1 & H2 & H3).
    pose proof (pixel_index_apart width a b' px py Ha Hx Hne) as Hapart.
    exists b0, b1, b2, b3.
    rewrite !putPixel_lookup_other by lia. done.
Qed.

Lemma column_rendering (px : nat) (rows : list nat) :
  (px < width)%nat -> Forall (fun py => py < height)%nat rows ->
  forall (S : nat -> nat -> Prop) (data : list Z),
    inv S data ->
    inv (fun a b => S a b \/ (a = px /\ b ∈ rows))
      (foldl (step px) data rows).
Proof.
  intros Hx. induction 1 as [|py rows Hy _ IH]; intros S data Hdata; simpl.
  - destruct Hdata as [Hlen Hpainted]. split; [done|].
    intros a b [HS|[_ Hin]]; [by apply Hpainted|]. by apply elem_of_nil in Hin.
  - destruct (IH _ _ (renderPixel_rendering S data px py Hx Hy Hdata))
      as [Hlen Hpainted].
    split; [done|].
    intros a b HS. apply Hpainted.
    destruct HS as [HS|[-> Hin]]; [by left; left|].
    apply elem_of_cons in Hin as [->|Hin]; [by left; right|by right].
Qed.

Lemma columns_rendering (columns : list nat) :
  Forall (fun px => px < width)%nat columns ->
  forall (S : nat -> nat -> Prop) (data : list Z),
    inv S data ->
    inv (fun a b => S a b \/ (a ∈ columns /\ b ∈ seq 0 height))
      (foldl (fun data px => foldl (step px) data (seq 0 height)) data columns).
Proof.
  induction 1 as [|px columns Hx _ IH]; intros S data Hdata; simpl.
  - destruct Hdata as [Hlen Hpainted]. split; [done|].
    intros a b [HS|[Hin _]]; [by apply Hpainted|]. by apply elem_of_nil in Hin.
  - assert (Forall (fun py => py < height)%nat (seq 0 height)) as Hrows.
    { apply Forall_forall. intros py Hpy. apply elem_of_seq in Hpy. lia. }
    destruct (IH _ _ (column_rendering px (seq 0 height) Hx Hrows S data Hdata))
      as [Hlen Hpainted].
    split; [done|].
    intros a b HS. apply Hpainted.
    destruct HS as [HS|[Hin Hb]]; [by left; left|].
    apply elem_of_cons in Hin as [->|Hin]; [by left; right|by right].
Qed.

Lemma generateFractal_painted (px py : nat) :
  (px < width)%nat -> (py < height)%nat ->
  length (generateFractal width height cx cy z m) = (width * height * 4)%nat
  /\ painted width height cx cy z m (generateFractal width height cx cy z m) px py.
Proof.
  intros Hx Hy.
  assert (Forall (fun px => px < width)%nat (seq 0 width)) as Hcolumns.
  { apply Forall_forall. intros a Ha. apply elem_of_seq in Ha. lia. }
  destruct (columns_rendering (seq 0 width) Hcolumns (fun _ _ => False)
              (replicate (width * height * 4) 0%Z)) as [Hlen Hpainted].
  { split; [by rewrite length_replicate|]. by intros ? ? []. }
  split; [done|].
  apply Hpainted; [|done..].
  right. split; apply elem_of_seq; lia.
Qed.
End Loops.

End RenderFacts.

(** The escape loop at the origin: [z] stays at 0 and only the budget stops
    the loop. *)
Lemma origin_loop (fuel : nat) (currentMaxIterations iteration : Z) :
  iteration <= currentMaxIterations ->
  fuel = Z.to_nat (currentMaxIterations - iteration) ->
  escapeLoop (T:=float) fuel (of_Z 0) (of_Z 0) currentMaxIterations
    (of_Z 0) (of_Z 0) iteration = Some currentMaxIterations.
Proof.
  revert iteration.
  induction fuel as [|fuel IH]; intros iteration Hle Hfuel.
  - assert (iteration = currentMaxIterations) as -> by lia.
    cbn [escapeLoop]. by rewrite Z.ltb_irrefl, andb_false_r.
  - cbn [escapeLoop].
    replace (iteration <? currentMaxIterations) with true
      by (symmetry; apply Z.ltb_lt; lia).
    change (of_Z 0 * of_Z 0 + of_Z 0 * of_Z 0 <=? of_Z 4)%num with true.
    cbn [andb].
    change (of_Z 0 * of_Z 0 - of_Z 0 * of_Z 0 + of_Z 0)%num with (of_Z (T:=float) 0).
    change (of_Z 2 * of_Z 0 * of_Z 0 + of_Z 0)%num with (of_Z (T:=float) 0).
    apply IH; lia.
Qed.

(** C5: in the buffer that [generateFractal] returns, on binary64, the escape
    loop of every pixel [(px, py)] of the canvas ends with a count, the alpha
    byte of the pixel is 255, and a pixel whose count equals the budget holds
    exactly the bytes 0, 0, 0, 255. *)
Theorem boundary_color (width height : nat) (cx cy z : float) (m : Z) (px py : nat) :
  (px < width)%nat -> (py < height)%nat ->
  let data := generateFractal width height cx cy z m in
  let pixelIndex := ((py * width + px) * 4)%nat in
  exists iteration : Z,
    (let '(x, y) := pixelToComplex width height cx cy z px py in
     escapeTime x y m) = Some iteration
    /\ data !! (pixelIndex + 3)%nat = Some 255
    /\ (iteration = m ->
        data !! pixelIndex = Some 0
        /\ data !! (pixelIndex + 1)%nat = Some 0
        /\ data !! (pixelIndex + 2)%nat = Some 0).
Proof.
  intros Hx Hy. cbv zeta.
  destruct (generateFractal_painted width height cx cy z m px py Hx Hy)
    as (_ & b0 & b1 & b2 & b3 & Hbytes & H0 & H1 & H2 & H3).
  unfold pixelBytes in Hbytes.
  destruct (pixelToComplex width height cx cy z px py) as [x y].
  destruct (escapeTime x y m) as [iteration|]; [|done].
  exists iteration. split; [done|].
  unfold pixelColor in Hbytes.
  destruct (iteration =? m) eqn:Heq.
  - injection Hbytes as <- <- <- <-. done.
  - apply Z.eqb_neq in Heq.
    destruct (hslToRgb _ _ _) as [[r g] b].
    injection Hbytes as <- <- <- <-. done.
Qed.

(** On a canvas of 3 by 2 pixels around -0.6 with a budget of 20, the pixel
    (1, 1) is in the set: its bytes, at the indices 16 to 19, are black and
    opaque. *)
Lemma boundary_color_witness :
  let data := generateFractal (T:=float) 3 2 (-0.6)%float 0%float 1%float 20 in
  data !! 19%nat = Some 255
  /\ data !! 16%nat = Some 0 /\ data !! 17%nat = Some 0 /\ data !! 18%nat = Some 0.
Proof.
  destruct (boundary_color 3 2 (-0.6)%float 0%float 1%float 20 1 1
              ltac:(lia) ltac:(lia)) as (iteration & Hit & Halpha & Hblack).
  vm_compute in Hit. injection Hit as <-.
  split; [exact Halpha|]. exact (Hblack eq_refl).
Defined.

(** C6: on binary64, for every budget [currentMaxIterations >= 1], the escape
    loop at the point (0, 0) returns, and its count is the budget. *)
Theorem origin_never_escapes (currentMaxIterations : Z) :
  1 <= currentMaxIterations ->
  escapeTime (T:=float) (of_Z 0) (of_Z 0) currentMaxIterations
  = Some currentMaxIterations.
Proof.
  intros Hm. unfold escapeTime. apply origin_loop; lia.
Qed.

Lemma origin_never_escapes_witness :
  escapeTime (T:=float) (of_Z 0) (of_Z 0) 100 = Some 100.
Proof. apply origin_never_escapes. lia. Defined.

(** C7: the three spot checks of [hslToRgb] on binary64: pure red, green and
    blue at the hues 0, 1/3 and 2/3. *)
Theorem hslToRgb_spot_checks :
  hslToRgb 0%float 1%float 0.5%float = (255, 0, 0)%float
  /\ hslToRgb (1 / 3)%float 1%float 0.5%float = (0, 255, 0)%float
  /\ hslToRgb (2 / 3)%float 1%float 0.5%float = (0, 0, 255)%float.
Proof. repeat split; vm_compute; reflexivity. Qed.

(** C8, as the claim states it, fails: after the input delivers -1 the state
    holds -1, not a budget of at least 1, and the effect renders the red
    pixel of a budget of -1, not the black pixel of a budget of 1. *)
Lemma budget_not_coerced :
  let c := setMaxIterations (mount (T:=float) 1 1) (-1) in
  ~ (1 <= maxIterations c)
  /\ renderEffect c
     <> generateFractal 1 1 (centerX c) (centerY c) (zoom c) (Z.max 1 (-1)).
Proof.
  cbv zeta. split.
  - cbn. lia.
  - vm_compute. discriminate.
Qed.

(** C8, amended: for every value [<= 0] that the input delivers, the
    component stores the value and the effect renders with it unchanged; the
    escape loop then makes no turn and returns the count 0 at every point. *)
Theorem budget_passed_unchanged {T : Type} `{JSNumber T}
    (c : FractalGenerator T) (value : Z) :
  value <= 0 ->
  maxIterations (setMaxIterations c value) = value
  /\ renderEffect (setMaxIterations c value)
     = generateFractal (width c) (height c) (centerX c) (centerY c) (zoom c) value
  /\ forall x y : T, escapeTime x y value = Some 0.
Proof.
  intros Hvalue. repeat split.
  intros x y. unfold escapeTime.
  replace (Z.to_nat value) with O by lia.
  cbn [escapeLoop].
  replace (0 <? value) with false by (symmetry; apply Z.ltb_ge; lia).
  by rewrite andb_false_r.
Qed.

Lemma budget_passed_unchanged_witness :
  renderEffect (setMaxIterations (mount (T:=float) 1 1) (-1))
  = generateFractal (T:=float) 1 1 (centerX (mount 1 1)) (centerY (mount 1 1))
      (zoom (mount 1 1)) (-1)
  /\ escapeTime (T:=float) (-0.6)%float 0%float (-1) = Some 0.
Proof.
  destruct (budget_passed_unchanged (mount (T:=float) 1 1) (-1) ltac:(lia))
    as (_ & Hrender & Hescape).
  split; [exact Hrender|apply Hescape].
Defined.

(** ** The viewport controller *)

(** What lines 124 and 125 compute, for every arithmetic: the X axis scales
    by [4 / (width * oldScale)], the Y axis by [4 / (height * oldScale)]. *)
Lemma handleZoom_center {T : Type} `{JSNumber T} (c : FractalGenerator T)
    (deltaY : T) (pointerPosition : Vector2d T) :
  let c' := handleZoom c deltaY (Some pointerPosition) in
  centerX c'
  = (centerX c
     + (pos_x pointerPosition / of_nat (width c) - decimal (1 # 2))
       * (of_Z 4 / (of_nat (width c) * zoom c)) * (zoom c - zoom c'))%num
  /\ centerY c'
     = (centerY c
        + (pos_y pointerPosition / of_nat (height c) - decimal (1 # 2))
          * (of_Z 4 / (of_nat (height c) * zoom c)) * (zoom c - zoom c'))%num.
Proof. done. Qed.

(** In exact arithmetic, a wheel event over the pixel [(px, py)] moves the
    point under that pixel along the X axis by the amount below: nothing
    only when the pointer is on the middle column or the zoom did not
    change. *)
Lemma zoom_displacement_exact (c : FractalGenerator Q) (deltaY : Q) (px py : nat) :
  let c' := handleZoom c deltaY (Some (pointerAt px py)) in
  let w := inject_Z (Z.of_nat (width c)) in
  let x := inject_Z (Z.of_nat px) in
  ~ (w == 0)%Q -> ~ (zoom c == 0)%Q -> ~ (zoom c' == 0)%Q ->
  (fst (complexUnder c' px py) - fst (complexUnder c px py)
   == (x - w / 2) * (4 / w) * ((zoom c - zoom c') / zoom c) * (1 / w + 1 / zoom c'))%Q.
Proof.
  cbv zeta. unfold complexUnder, pixelToComplex, handleZoom, pointerAt, of_nat.
  cbn [fst width height centerX centerY zoom pos_x pos_y].
  cbn [add sub mul div of_Z decimal Exact.exact].
  set (z' := Math_max _ _).
  generalize (inject_Z (Z.of_nat (width c))), (inject_Z (Z.of_nat px)),
    (zoom c), (centerX c), z'.
  intros w x z cx zn Hw Hz Hzn.
  field. repeat split; done.
Qed.

(** C1, at a failing input: the component as [App] mounts it (800 by 600,
    centre -0.6, zoom 1), the pointer over the pixel (200, 150), one zoom-in
    wheel event.  The point under the pointer is (-1.6, -0.75) before and
    about (-1.509, -0.682) after; neither coordinate agrees within the
    relative tolerance 1e-9. *)
Theorem zoom_moves_point_under_pointer :
  let c := mount (T:=float) 800 600 in
  let c' := handleZoom c (-100)%float (Some (pointerAt 200 150)) in
  complexUnder c 200 150 = (-1.6, -0.75)%float
  /\ complexUnder c' 200 150 = (-1.5089659090909091, -0.68165151515151512)%float
  /\ relativelyClose 1e-9 (fst (complexUnder c 200 150))
       (fst (complexUnder c' 200 150)) = false
  /\ relativelyClose 1e-9 (snd (complexUnder c 200 150))
       (snd (complexUnder c' 200 150)) = false.
Proof. vm_compute. repeat split; reflexivity. Qed.

(** C2, at a failing input: on the mounted component of 800 by 600, with the
    pointer over the pixel (200, 150) and one zoom-in wheel event, line 125
    gives the new [centerY] with the scale [4 / (height * oldScale)], which
    is not the value of the formula of the specification. *)
Theorem zoom_center_differs_from_spec :
  let c := mount (T:=float) 800 600 in
  let p := pointerAt 200 150 in
  centerY (handleZoom c (-100)%float (Some p)) = 0.00016666666666666682%float
  /\ snd (specZoomCenter c (-100)%float p) = 0.00012500000000000011%float
  /\ (centerY (handleZoom c (-100)%float (Some p))
      === snd (specZoomCenter c (-100)%float p))%num = false
  /\ centerX (handleZoom c (-100)%float (Some p))
     = fst (specZoomCenter c (-100)%float p).
Proof. vm_compute. repeat split; reflexivity. Qed.

Lemma handleZoom_zoomInRange (c : FractalGenerator float) (deltaY : float)
    (pointerPosition : option (Vector2d float)) :
  zoomInRange (zoom c) -> zoomInRange (zoom (handleZoom c deltaY pointerPosition)).
Proof.
  intros Hzoom. destruct pointerPosition as [p|]; [|done].
  unfold handleZoom. cbn [zoom].
  apply clamp_zoomInRange.
  destruct Hzoom as [Hlo _]. apply leb_true_not_nan in Hlo as [_ Hnan].
  destruct (lt _ _); auto using mul_scaleBy_not_nan, div_scaleBy_not_nan.
Qed.

Lemma handle_zoomInRange (c : FractalGenerator float) (e : Event float) :
  zoomInRange (zoom c) -> zoomInRange (zoom (handle c e)).
Proof.
  destruct e; simpl; auto using handleZoom_zoomInRange.
  unfold handleMouseMove.
  by destruct (isPanning c), (lastMousePositionRef c), pointerPosition.
Qed.

(** C3: on binary64, from the mounted component (zoom 1) and after every
    finite sequence of events, the wheel events with any [deltaY] and any
    pointer position among them, the zoom is at least 0.00001 and at most
    1000000. *)
Theorem zoom_stays_in_range (width height : nat) (events : list (Event float)) :
  zoomInRange (zoom (run (mount width height) events)).
Proof.
  unfold run.
  assert (zoomInRange (zoom (mount (T:=float) width height))) as Hinit.
  { split; reflexivity. }
  revert Hinit. generalize (mount (T:=float) width height).
  induction events as [|e events IH]; intros c Hc; simpl; [done|].
  apply IH. by apply handle_zoomInRange.
Qed.



(** The pan of the mounted component on binary64 rounds twice: the centre
    comes back one unit in the last place away. *)
Example pan_round_trip_binary64 :
  let c := mount (T:=float) 800 600 in
  let c' := run c [MouseDown (Some (pointerAt 100 100));
                   MouseMove (Some (pointerAt 350 275));
                   MouseMove (Some (pointerAt 100 100))] in
  centerX c = (-0.6)%float
  /\ centerX c' = (-0.6000000000000001)%float
  /\ relativelyClose 1e-15 (centerX c') (centerX c) = true
  /\ centerY c' = centerY c.
Proof. vm_compute. repeat split; reflexivity. Qed.

(** On the mounted component, every pan between two pixels of the grid of
    step 10 comes back within 1e-15. *)
Example pan_round_trip_binary64_grid :
  forallb
    (fun i =>
       forallb
         (fun j => panRoundTripClose (mount 800 600)
                     (10 * i) (10 * (i mod 60)) (10 * j) (10 * (j mod 60)))
         (seq 0 80))
    (seq 0 80) = true.
Proof. vm_compute. reflexivity. Qed.

(** C9: for every arithmetic, a pointer-move event, whatever the state of the
    pan, leaves the zoom, the iteration budget and the width and height of
    the canvas as they were. *)
Theorem pan_move_frame {T : Type} `{JSNumber T} (c : FractalGenerator T)
    (pointerPosition : option (Vector2d T)) :
  let c' := handleMouseMove c pointerPosition in
  zoom c' = zoom c
  /\ maxIterations c' = maxIterations c
  /\ width c' = width c
  /\ height c' = height c.
Proof.
  unfold handleMouseMove.
  by destruct (isPanning c), (lastMousePositionRef c), pointerPosition.
Qed.

(** C10: on binary64, a wheel event with a pointer position divides the zoom
    by 1.1 when [deltaY > 0] and multiplies it by 1.1 when [deltaY > 0] is
    false, which is the case whenever [deltaY <= 0], so also at
    [deltaY = 0]; line 122 then clamps the result. *)
Theorem wheel_direction (c : FractalGenerator float) (deltaY : float)
    (pointerPosition : Vector2d float) :
  let scaleBy := decimal (11 # 10) in
  let clamp newScale :=
    Math_max (decimal (1 # 100000)) (Math_min (of_Z 1000000) newScale) in
  let c' := handleZoom c deltaY (Some pointerPosition) in
  ((deltaY >? of_Z 0)%num = true -> zoom c' = clamp (zoom c / scaleBy)%num)
  /\ ((deltaY >? of_Z 0)%num = false -> zoom c' = clamp (zoom c * scaleBy)%num)
  /\ ((deltaY <=? of_Z 0)%num = true -> zoom c' = clamp (zoom c * scaleBy)%num).
Proof.
  cbv zeta. unfold handleZoom. cbn [zoom].
  split; [|split].
  - by intros ->.
  - by intros ->.
  - intros Hle. apply leb_not_ltb in Hle.
    change (@lt float _) with PrimFloat.ltb. by rewrite Hle.
Qed.

(** On the mounted component: a wheel event of [deltaY = 0] zooms in to 1.1,
    as one of [deltaY = -100] does, and one of [deltaY = 100] zooms out. *)
Lemma wheel_direction_witness :
  let c := mount (T:=float) 800 600 in
  let p := pointerAt 400 300 in
  zoom (handleZoom c 0%float (Some p)) = 1.1%float
  /\ zoom (handleZoom c (-100)%float (Some p)) = 1.1%float
  /\ zoom (handleZoom c 100%float (Some p)) = 0.90909090909090906%float.
Proof.
  cbv zeta. split; [|split].
  - destruct (wheel_direction (mount 800 600) 0%float (pointerAt 400 300))
      as (_ & _ & Hle).
    rewrite (Hle eq_refl). vm_compute. reflexivity.
  - destruct (wheel_direction (mount 800 600) (-100)%float (pointerAt 400 300))
      as (_ & Hnot & _).
    rewrite (Hnot eq_refl). vm_compute. reflexivity.
  - destruct (wheel_direction (mount 800 600) 100%float (pointerAt 400 300))
      as (Hpos & _ & _).
    rewrite (Hpos eq_refl). vm_compute. reflexivity.
Defined.


(** ** Beyond the claims: the escape loop *)

Section EscapeFacts.

Context {T : Type} `{JSNumber T}.

(** The loop from any [z] and any count: it stops at the first turn at which
    [z] is outside the radius, or when the count reaches the budget. *)
Lemma escapeLoop_first_exit (fuel : nat) :
  forall (x y : T) (m : Z) (zx zy : T) (iteration n : Z),
    escapeLoop fuel x y m zx zy iteration = Some n ->
    exists j : nat,
      n = iteration + Z.of_nat j
      /\ (forall k : nat, (k < j)%nat ->
            withinRadius (Nat.iter k (escapeStep x y) (zx, zy)) = true)
      /\ (j = O \/ n <= m)
      /\ (n < m -> withinRadius (Nat.iter j (escapeStep x y) (zx, zy)) = false).
Proof.
  induction fuel as [|fuel IH]; intros x y m zx zy it n; cbn [escapeLoop].
  - destruct (le _ _) eqn:Hin; simpl.
    + destruct (Z.ltb_spec it m); [done|]. intros [= <-].
      exists O. split; [lia|]. split; [intros k Hk; lia|]. split; [by left|lia].
    + intros [= <-].
      exists O. split; [lia|]. split; [intros k Hk; lia|]. split; [by left|done].
  - destruct (le _ _) eqn:Hin; simpl.
    + destruct (Z.ltb_spec it m) as [Hlt|Hge].
      * intros Hloop.
        destruct (IH _ _ _ _ _ _ _ Hloop) as (j & -> & Hbefore & Hle & Hexit).
        exists (S j). split; [lia|]. split; [|split].
        -- intros [|k] Hk; [exact Hin|].
           rewrite Nat.iter_succ_r. apply Hbefore. lia.
        -- right. destruct Hle as [->|Hle]; lia.
        -- intros Hn. rewrite Nat.iter_succ_r. by apply Hexit.
      * intros [= <-].
        exists O. split; [lia|]. split; [intros k Hk; lia|]. split; [by left|lia].
    + intros [= <-].
      exists O. split; [lia|]. split; [intros k Hk; lia|]. split; [by left|done].
Qed.

Lemma escapeTime_exit (x y : T) (m : Z) :
  0 <= m ->
  exists j : nat,
    escapeTime x y m = Some (Z.of_nat j)
    /\ Z.of_nat j <= m
    /\ (forall k : nat, (k < j)%nat -> withinRadius (orbit x y k) = true)
    /\ (Z.of_nat j < m -> withinRadius (orbit x y j) = false).
Proof.
  intros Hm.
  destruct (escapeTime_terminates x y m) as (n & Hn & _ & _).
  destruct (escapeLoop_first_exit _ _ _ _ _ _ _ _ Hn) as (j & -> & Hbefore & Hle & Hexit).
  exists j. rewrite Hn. repeat split; [|done..].
  destruct Hle as [->|Hle]; lia.
Qed.

(** X1: for every arithmetic, point and budget [m >= 0], the escape loop
    returns the count [j] exactly when [j <= m], [z] is within the radius
    ([zx*zx + zy*zy <= 4]) after each of the first [j] turns but the last,
    and, if [j < m], [z] is outside it after [j] turns: the count is the
    first exit of the orbit, cut at the budget. *)
Theorem escapeTime_first_exit (x y : T) (m : Z) (j : nat) :
  0 <= m ->
  escapeTime x y m = Some (Z.of_nat j)
  <-> (Z.of_nat j <= m
       /\ (forall k : nat, (k < j)%nat -> withinRadius (orbit x y k) = true)
       /\ (Z.of_nat j < m -> withinRadius (orbit x y j) = false)).
Proof.
  intros Hm.
  destruct (escapeTime_exit x y m Hm) as (i & Hi & Him & Hbefore & Hexit).
  rewrite Hi. split.
  - intros [= Heq]. apply Nat2Z.inj in Heq as <-. done.
  - intros (Hjm & Hbefore' & Hexit'). do 2 f_equal.
    destruct (Nat.lt_trichotomy i j) as [Hij|[->|Hji]]; [|done|].
    + specialize (Hexit ltac:(lia)). by rewrite (Hbefore' i Hij) in Hexit.
    + specialize (Hexit' ltac:(lia)). by rewrite (Hbefore j Hji) in Hexit'.
Qed.

(** X2: for every arithmetic and point, and budgets [0 <= m <= m'], the
    count under the budget [m] is the smaller of [m] and the count under
    [m']: a larger budget never lowers a count, and does not change the
    count of a point that escaped. *)
Theorem escapeTime_budget (x y : T) (m m' : Z) (n' : Z) :
  0 <= m -> m <= m' ->
  escapeTime x y m' = Some n' ->
  escapeTime x y m = Some (Z.min m n').
Proof.
  intros Hm Hmm' Hn'.
  destruct (escapeTime_exit x y m Hm) as (j & Hj & Hjm & Hbefore & Hexit).
  destruct (escapeTime_exit x y m' ltac:(lia)) as (j' & Hj' & Hjm' & Hbefore' & Hexit').
  rewrite Hj' in Hn'. injection Hn' as <-. rewrite Hj. f_equal.
  destruct (Z.lt_ge_cases (Z.of_nat j) m) as [Hlt|Hge].
  - specialize (Hexit Hlt).
    destruct (Nat.lt_trichotomy j j') as [Hjj|[->|Hjj]]; [|lia|].
    + by rewrite (Hbefore' j Hjj) in Hexit.
    + specialize (Hexit' ltac:(lia)). by rewrite (Hbefore j' Hjj) in Hexit'.
  - destruct (Z.lt_ge_cases (Z.of_nat j') m) as [Hlt'|Hge']; [|lia].
    specialize (Hexit' ltac:(lia)).
    by rewrite (Hbefore j' ltac:(lia)) in Hexit'.
Qed.

End EscapeFacts.

Lemma escapeTime_first_exit_witness :
  escapeTime (T:=float) 1%float 0%float 100 = Some (Z.of_nat 3)
  <-> (Z.of_nat 3 <= 100
       /\ (forall k : nat, (k < 3)%nat ->
             withinRadius (orbit (T:=float) 1%float 0%float k) = true)
       /\ (Z.of_nat 3 < 100 ->
           withinRadius (orbit (T:=float) 1%float 0%float 3) = false)).
Proof. apply escapeTime_first_exit. lia. Defined.

Lemma escapeTime_budget_witness :
  escapeTime (T:=float) 1%float 0%float 2 = Some (Z.min 2 3)
  /\ escapeTime (T:=float) 1%float 0%float 50 = Some (Z.min 50 3).
Proof.
  split.
  - apply (escapeTime_budget 1%float 0%float 2 100 3); [lia|lia|reflexivity].
  - apply (escapeTime_budget 1%float 0%float 50 100 3); [lia|lia|reflexivity].
Defined.

Section EscapeBinary64.

Lemma zero_add_square (a : float) :
  ((of_Z 0 * of_Z 0 - of_Z 0 * of_Z 0 + a) * (of_Z 0 * of_Z 0 - of_Z 0 * of_Z 0 + a))%num
  = (a * a)%num.
Proof.
  change (of_Z 0 * of_Z 0 - of_Z 0 * of_Z 0)%num with 0%float.
  change (@add float _) with PrimFloat.add. change (@mul float _) with PrimFloat.mul.
  apply Prim2SF_inj. rewrite !mul_spec, add_spec.
  change (Prim2SF 0) with (S754_zero false).
  by destruct (Prim2SF a) as [[]|[]| |].
Qed.

Lemma zero_add_square_twice (a : float) :
  ((of_Z 2 * of_Z 0 * of_Z 0 + a) * (of_Z 2 * of_Z 0 * of_Z 0 + a))%num = (a * a)%num.
Proof.
  change (of_Z 2 * of_Z 0 * of_Z 0)%num with 0%float.
  change (@add float _) with PrimFloat.add. change (@mul float _) with PrimFloat.mul.
  apply Prim2SF_inj. rewrite !mul_spec, add_spec.
  change (Prim2SF 0) with (S754_zero false).
  by destruct (Prim2SF a) as [[]|[]| |].
Qed.

(** After the first turn [z] is [c], but for the sign of a zero. *)
Lemma withinRadius_first (x y : float) :
  withinRadius (orbit x y 1) = (x * x + y * y <=? of_Z 4)%num.
Proof.
  unfold orbit, withinRadius.
  change (Nat.iter 1 (escapeStep x y) (of_Z 0, of_Z 0))
    with (of_Z 0 * of_Z 0 - of_Z 0 * of_Z 0 + x, of_Z 2 * of_Z 0 * of_Z 0 + y)%num.
  cbv beta iota.
  by rewrite zero_add_square, zero_add_square_twice.
Qed.

(** X3: on binary64, with a budget [m >= 1], the count of every point, NaN
    coordinates included, is at least 1 and at most [m]: the first test of
    the loop, at [z = 0], always passes. *)
Theorem escapeTime_at_least_one (x y : float) (m : Z) :
  1 <= m ->
  exists n : Z, escapeTime x y m = Some n /\ 1 <= n <= m.
Proof.
  intros Hm.
  destruct (escapeTime_exit x y m ltac:(lia)) as (j & Hj & Hjm & _ & Hexit).
  exists (Z.of_nat j). split; [done|]. split; [|done].
  destruct j as [|j]; [|lia].
  by specialize (Hexit ltac:(lia)).
Qed.

Lemma escapeTime_at_least_one_witness :
  exists n : Z, escapeTime (T:=float) nan 0.25%float 7 = Some n /\ 1 <= n <= 7.
Proof. apply escapeTime_at_least_one. lia. Defined.

(** X4: on binary64, with a budget [m >= 1], a point [c = (x, y)] for which
    [x*x + y*y <= 4] is false (outside the radius, or not a number) has the
    count 1. *)
Theorem escapeTime_outside (x y : float) (m : Z) :
  1 <= m ->
  (x * x + y * y <=? of_Z 4)%num = false ->
  escapeTime x y m = Some 1.
Proof.
  intros Hm Hout.
  destruct (escapeTime_exit x y m ltac:(lia)) as (j & Hj & Hjm & Hbefore & Hexit).
  rewrite Hj. f_equal.
  destruct j as [|[|j]]; [|done|].
  - by specialize (Hexit ltac:(lia)).
  - specialize (Hbefore 1%nat ltac:(lia)).
    rewrite withinRadius_first in Hbefore. congruence.
Qed.

Lemma escapeTime_outside_witness :
  escapeTime (T:=float) (-2.6)%float (-1.5)%float 100 = Some 1.
Proof. apply escapeTime_outside; [lia|reflexivity]. Defined.

End EscapeBinary64.

(** ** Beyond the claims: the events *)

Section ControllerFacts.

Context {T : Type} `{JSNumber T}.

(** The handlers that branch: on the pointer position, on the pan state. *)
Ltac by_handler c p :=
  cbn [handle]; unfold handleZoom, handleMouseMove;
  destruct p; destruct (isPanning c) eqn:?;
  by destruct (lastMousePositionRef c) eqn:?.

Lemma run_app (c : FractalGenerator T) (events rest : list (Event T)) :
  run c (events ++ rest) = run (run c events) rest.
Proof. unfold run. apply foldl_app. Qed.

Lemma run_cons (c : FractalGenerator T) (e : Event T) (rest : list (Event T)) :
  run c (e :: rest) = run (handle c e) rest.
Proof. done. Qed.

Lemma handle_canvas (c : FractalGenerator T) (e : Event T) :
  width (handle c e) = width c /\ height (handle c e) = height c.
Proof. destruct e as [deltaY p|pos|p| | |value]; try done; by_handler c p. Qed.

Lemma run_canvas (events : list (Event T)) :
  forall c : FractalGenerator T,
    width (run c events) = width c /\ height (run c events) = height c.
Proof.
  induction events as [|e events IH]; intros c; [done|].
  rewrite run_cons. destruct (IH (handle c e)) as [-> ->].
  apply handle_canvas.
Qed.

Lemma handle_not_button (c : FractalGenerator T) (e : Event T) :
  isButtonEvent e = false -> isPanning (handle c e) = isPanning c.
Proof. destruct e as [deltaY p|pos|p| | |value]; try done; by_handler c p. Qed.

Lemma run_not_button (events : list (Event T)) :
  forallb (fun e => negb (isButtonEvent e)) events = true ->
  forall c : FractalGenerator T, isPanning (run c events) = isPanning c.
Proof.
  induction events as [|e events IH]; intros Hno c; [done|].
  simpl in Hno. apply andb_true_iff in Hno as [He Hno].
  rewrite run_cons, IH by done.
  apply handle_not_button. by destruct (isButtonEvent e).
Qed.

(** X8: for every arithmetic, component and sequence of events, the last
    button event decides the cursor: after a mouse-down followed by events
    that are no button events the cursor is ['grabbing'], after a mouse-up
    or a mouse-leave followed by such events it is ['grab']. *)
Theorem last_button_event_decides_cursor (c : FractalGenerator T)
    (events rest : list (Event T)) (pos : option (Vector2d T)) :
  forallb (fun e => negb (isButtonEvent e)) rest = true ->
  cursor (run c (events ++ MouseDown pos :: rest)) = cursor_grabbing
  /\ cursor (run c (events ++ MouseUp :: rest)) = cursor_grab
  /\ cursor (run c (events ++ MouseLeave :: rest)) = cursor_grab.
Proof.
  intros Hrest. unfold cursor.
  by rewrite !run_app, !run_cons, !run_not_button.
Qed.

Lemma handle_not_change (c : FractalGenerator T) (e : Event T) :
  isChangeEvent e = false -> maxIterations (handle c e) = maxIterations c.
Proof. destruct e as [deltaY p|pos|p| | |value]; try done; by_handler c p. Qed.

Lemma run_not_change (events : list (Event T)) :
  forallb (fun e => negb (isChangeEvent e)) events = true ->
  forall c : FractalGenerator T, maxIterations (run c events) = maxIterations c.
Proof.
  induction events as [|e events IH]; intros Hno c; [done|].
  simpl in Hno. apply andb_true_iff in Hno as [He Hno].
  rewrite run_cons, IH by done.
  apply handle_not_change. by destruct (isChangeEvent e).
Qed.

(** X9: for every arithmetic, component and sequence of events, the budget
    is the value of the last change of the input, whatever wheel, button and
    move events follow it, and such events alone leave the budget as it
    was. *)
Theorem last_change_decides_budget (c : FractalGenerator T)
    (events rest : list (Event T)) (value : Z) :
  forallb (fun e => negb (isChangeEvent e)) rest = true ->
  maxIterations (run c (events ++ Change value :: rest)) = value
  /\ maxIterations (run c rest) = maxIterations c.
Proof.
  intros Hrest. split; [|by apply run_not_change].
  by rewrite run_app, run_cons, run_not_change.
Qed.

Lemma handle_anchored (c : FractalGenerator T) (e : Event T) :
  anchored c -> anchored (handle c e).
Proof.
  unfold anchored. intros Hc.
  destruct e as [deltaY p|pos|p| | |value]; try done; cbn [handle].
  - unfold handleZoom. destruct p; exact Hc.
  - unfold handleMouseMove.
    destruct (isPanning c) eqn:Hpan; [|intros _; by apply Hc].
    destruct (lastMousePositionRef c), p; intros Hidle; cbn in Hidle; congruence.
Qed.

Lemma run_anchored (events : list (Event T)) :
  forall c : FractalGenerator T, anchored c -> anchored (run c events).
Proof.
  induction events as [|e events IH]; intros c Hc; [done|].
  rewrite run_cons. apply IH. by apply handle_anchored.
Qed.

(** X10: for every arithmetic and canvas size, after every sequence of events
    from the mounted component, a component that is not panning holds no
    anchor, and a pointer-move event then changes nothing. *)
Theorem idle_has_no_anchor (width height : nat) (events : list (Event T)) :
  let c := run (mount width height) events in
  isPanning c = false ->
  lastMousePositionRef c = None
  /\ forall pointerPosition, handleMouseMove c pointerPosition = c.
Proof.
  cbv zeta. intros Hidle. split.
  - by apply (run_anchored events (mount width height)).
  - intros p. unfold handleMouseMove. by rewrite Hidle.
Qed.

End ControllerFacts.

Lemma last_button_event_decides_cursor_witness :
  let moves := [MouseMove (Some (pointerAt 10 10)); Wheel 0%float None; Change 7] in
  cursor (run (App (T:=float)) ([MouseUp] ++ MouseDown None :: moves)) = cursor_grabbing
  /\ cursor (run (App (T:=float)) ([MouseUp] ++ MouseUp :: moves)) = cursor_grab
  /\ cursor (run (App (T:=float)) ([MouseUp] ++ MouseLeave :: moves)) = cursor_grab.
Proof. apply last_button_event_decides_cursor. reflexivity. Defined.

Lemma last_change_decides_budget_witness :
  let rest := [MouseDown (Some (pointerAt 10 10)); Wheel 0%float None; MouseUp] in
  maxIterations (run (App (T:=float)) ([Change 3] ++ Change 250 :: rest)) = 250
  /\ maxIterations (run (App (T:=float)) rest) = maxIterations (App (T:=float)).
Proof. apply last_change_decides_budget. reflexivity. Defined.

Lemma idle_has_no_anchor_witness :
  let c := run (mount (T:=float) 800 600)
             [MouseDown (Some (pointerAt 10 10)); MouseMove (Some (pointerAt 20 10));
              MouseLeave] in
  lastMousePositionRef c = None
  /\ forall pointerPosition, handleMouseMove c pointerPosition = c.
Proof.
  apply (idle_has_no_anchor (T:=float) 800 600
           [MouseDown (Some (pointerAt 10 10)); MouseMove (Some (pointerAt 20 10));
            MouseLeave]).
  reflexivity.
Defined.

(** ** Beyond the claims: the buffer *)

Section BufferFacts.

Context {T : Type} `{JSNumber T}.

(** What every store of the loops preserves holds of the buffer. *)
Lemma generateFractal_preserves (P : list Z -> Prop)
    (width height : nat) (cx cy z : T) (m : Z) :
  (forall (data : list Z) (px py : nat) (color : T * T * T),
      P data -> P (putPixel width data px py color)) ->
  P (replicate (width * height * 4) 0) ->
  P (generateFractal width height cx cy z m).
Proof.
  intros Hput. unfold generateFractal.
  generalize (replicate (width * height * 4) 0). generalize (seq 0 width).
  intros columns. induction columns as [|px columns IH]; intros data Hdata; simpl; [done|].
  apply IH. revert data Hdata. generalize (seq 0 height).
  intros rows. induction rows as [|py rows IHrows]; intros data Hdata; simpl; [done|].
  apply IHrows. unfold renderPixel.
  destruct (pixelToComplex _ _ _ _ _ _ _) as [x y].
  destruct (escapeTime x y m); [by apply Hput|done].
Qed.

(** X5: for every arithmetic, canvas, viewport and budget, the buffer holds
    at the indices [(py * width + px) * 4] to [+ 3] of every pixel [(px, py)]
    of the canvas the bytes of the colour of that pixel's own escape count,
    and the byte of 255: row-major, and no pixel overwrites another. *)
Theorem generateFractal_pixel (width height : nat) (cx cy z : T) (m : Z) (px py : nat) :
  (px < width)%nat -> (py < height)%nat ->
  let data := generateFractal width height cx cy z m in
  let pixelIndex := ((py * width + px) * 4)%nat in
  exists (iteration : Z) (r g b : T),
    (let '(x, y) := pixelToComplex width height cx cy z px py in
     escapeTime x y m) = Some iteration
    /\ pixelColor iteration m = (r, g, b)
    /\ data !! pixelIndex = Some (ToUint8Clamp r)
    /\ data !! (pixelIndex + 1)%nat = Some (ToUint8Clamp g)
    /\ data !! (pixelIndex + 2)%nat = Some (ToUint8Clamp b)
    /\ data !! (pixelIndex + 3)%nat = Some (ToUint8Clamp (of_Z 255)).
Proof.
  intros Hx Hy. cbv zeta.
  destruct (generateFractal_painted width height cx cy z m px py Hx Hy)
    as (_ & b0 & b1 & b2 & b3 & Hbytes & H0 & H1 & H2 & H3).
  unfold pixelBytes in Hbytes.
  destruct (pixelToComplex width height cx cy z px py) as [x y].
  destruct (escapeTime x y m) as [iteration|]; [|done].
  destruct (pixelColor iteration m) as [[r g] b] eqn:Hcolor.
  injection Hbytes as <- <- <- <-.
  by exists iteration, r, g, b.
Qed.

End BufferFacts.

(** On a canvas of 3 by 2 pixels around -0.6 with a budget of 20, the pixel
    (0, 1) escapes at the first turn: hue 1/20 gives the bytes 255, 77, 0. *)
Lemma generateFractal_pixel_witness :
  let data := generateFractal (T:=float) 3 2 (-0.6)%float 0%float 1%float 20 in
  data !! 12%nat = Some 255 /\ data !! 13%nat = Some 77
  /\ data !! 14%nat = Some 0 /\ data !! 15%nat = Some 255.
Proof.
  destruct (generateFractal_pixel (T:=float) 3 2 (-0.6)%float 0%float 1%float 20 0 1
              ltac:(lia) ltac:(lia))
    as (iteration & r & g & b & Hit & Hcolor & H0 & H1 & H2 & H3).
  vm_compute in Hit. injection Hit as <-.
  vm_compute in Hcolor. injection Hcolor as <- <- <-.
  repeat split; assumption.
Defined.

Section BufferBinary64.

Lemma to_uint8_clamp_range (a : float) : 0 <= Binary64.to_uint8_clamp a <= 255.
Proof.
  unfold Binary64.to_uint8_clamp.
  destruct (Prim2SF a) as [s|[]| |[] m e]; try lia.
  destruct (0 <=? e) eqn:He.
  - apply Z.leb_le in He.
    pose proof (Z.pow_pos_nonneg 2 e ltac:(lia) He). nia.
  - apply Z.leb_gt in He.
    pose proof (Z.pow_pos_nonneg 2 (- e) ltac:(lia) ltac:(lia)) as Hpow.
    pose proof (Z.div_pos (Z.pos m) (2 ^ (- e)) ltac:(lia) Hpow) as Hf.
    destruct (_ ?= _); [destruct (Z.even _)| |]; lia.
Qed.

(** X6: on binary64, after every sequence of events from any component, the
    buffer that the effect renders has [width * height * 4] bytes, each
    between 0 and 255, and the fourth byte of each group of four is 255. *)
Theorem rendered_buffer_shape (c : FractalGenerator float) (events : list (Event float)) :
  let data := renderEffect (run c events) in
  length data = (width c * height c * 4)%nat
  /\ Forall (fun byte => 0 <= byte <= 255) data
  /\ forall i : nat, (i < width c * height c)%nat -> data !! (i * 4 + 3)%nat = Some 255.
Proof.
  cbv zeta. unfold renderEffect.
  destruct (run_canvas events c) as [-> ->].
  generalize (centerX (run c events)), (centerY (run c events)),
    (zoom (run c events)), (maxIterations (run c events)).
  intros cx cy z m. split; [|split].
  - apply (generateFractal_preserves (fun data => length data = _)).
    + intros data px py color Hlen. by rewrite putPixel_length.
    + by rewrite length_replicate.
  - apply (generateFractal_preserves (Forall (fun byte => 0 <= byte <= 255))).
    + intros data px py [[r g] b] Hdata. unfold putPixel, store.
      repeat apply Forall_insert; try done; apply to_uint8_clamp_range.
    + apply Forall_replicate. lia.
  - intros i Hi.
    assert (width c <> 0)%nat as Hw by lia.
    pose proof (Nat.mod_upper_bound i (width c) Hw) as Hx.
    pose proof (Nat.div_mod i (width c) Hw) as Hdiv.
    assert (i `div` width c < height c)%nat as Hy.
    { apply Nat.Div0.div_lt_upper_bound. lia. }
    destruct (generateFractal_painted (width c) (height c) cx cy z m _ _ Hx Hy)
      as (_ & b0 & b1 & b2 & b3 & Hbytes & _ & _ & _ & H3).
    replace (i * 4 + 3)%nat
      with ((i `div` width c * width c + i `mod` width c) * 4 + 3)%nat by lia.
    rewrite H3. unfold pixelBytes in Hbytes.
    destruct (pixelToComplex _ _ _ _ _ _ _) as [x y].
    destruct (escapeTime x y m); [|done].
    destruct (pixelColor _ _) as [[r g] b].
    by injection Hbytes as <- <- <- <-.
Qed.

Lemma rendered_buffer_shape_witness :
  let data := renderEffect (run (mount (T:=float) 3 2) [Wheel 0%float None; Change 20]) in
  length data = 24%nat /\ data !! 23%nat = Some 255.
Proof.
  destruct (rendered_buffer_shape (mount 3 2) [Wheel 0%float None; Change 20])
    as (Hlen & _ & Halpha).
  split; [exact Hlen|]. apply (Halpha 5%nat). cbn. lia.
Defined.

(** X7: on binary64, with a budget of 0 or of 1, every pixel of every canvas
    is black and opaque, whatever the viewport: the count of every point is
    the budget. *)
Theorem smallest_budgets_render_black (width height : nat) (cx cy z : float) (m : Z)
    (px py : nat) :
  0 <= m <= 1 -> (px < width)%nat -> (py < height)%nat ->
  let data := generateFractal width height cx cy z m in
  let pixelIndex := ((py * width + px) * 4)%nat in
  data !! pixelIndex = Some 0
  /\ data !! (pixelIndex + 1)%nat = Some 0
  /\ data !! (pixelIndex + 2)%nat = Some 0
  /\ data !! (pixelIndex + 3)%nat = Some 255.
Proof.
  intros Hm Hx Hy. cbv zeta.
  destruct (generateFractal_painted width height cx cy z m px py Hx Hy)
    as (_ & b0 & b1 & b2 & b3 & Hbytes & H0 & H1 & H2 & H3).
  unfold pixelBytes in Hbytes.
  destruct (pixelToComplex width height cx cy z px py) as [x y].
  destruct (escapeTime_exit x y m ltac:(lia)) as (j & Hj & Hjm & _ & Hexit).
  rewrite Hj in Hbytes.
  assert (Z.of_nat j = m) as Hcount.
  { destruct j as [|j]; [|lia].
    destruct (Z.eq_dec m 0) as [->|Hne]; [done|].
    by specialize (Hexit ltac:(lia)). }
  rewrite Hcount in Hbytes.
  unfold pixelColor in Hbytes. rewrite Z.eqb_refl in Hbytes.
  by injection Hbytes as <- <- <- <-.
Qed.

Lemma smallest_budgets_render_black_witness :
  let data := generateFractal (T:=float) 2 1 3%float 0%float 1%float 1 in
  data !! 4%nat = Some 0 /\ data !! 5%nat = Some 0
  /\ data !! 6%nat = Some 0 /\ data !! 7%nat = Some 255.
Proof.
  apply (smallest_budgets_render_black 2 1 3%float 0%float 1%float 1 1 0); lia.
Defined.

End BufferBinary64.

(** ** Beyond the claims: the viewport in exact arithmetic *)

Section ControllerExact.

#[local] Open Scope Q_scope.

Lemma last_cons_default {A : Type} (l : list A) :
  forall a d : A, List.last (a :: l) d = List.last l a.
Proof.
  induction l as [|b l IH]; intros a d; [done|].
  change (List.last (a :: b :: l) d) with (List.last (b :: l) d).
  by rewrite !IH.
Qed.

Lemma nat_nonzero (n : nat) : (0 < n)%nat -> ~ inject_Z (Z.of_nat n) == 0.
Proof. intros Hn Heq. unfold Qeq in Heq. simpl in Heq. lia. Qed.

(** A drag that is under way: the moves add up to the one from the anchor to
    the last position. *)
Lemma drag_exact (moves : list (Vector2d Q)) :
  forall (c : FractalGenerator Q) (p : Vector2d Q),
    isPanning c = true -> lastMousePositionRef c = Some p ->
    let c' := run c (map (fun q => MouseMove (Some q)) moves) in
    centerX c' == centerX c - (pos_x (List.last moves p) - pos_x p) * pixelScale c * (1 # 2)
    /\ centerY c' == centerY c - (pos_y (List.last moves p) - pos_y p) * pixelScale c * (1 # 2).
Proof.
  induction moves as [|q moves IH]; intros c p Hpan Hlast; cbv zeta.
  - cbn. split; ring.
  - change (run c (map _ (q :: moves)))
      with (run (handleMouseMove c (Some q)) (map (fun q => MouseMove (Some q)) moves)).
    assert (handleMouseMove c (Some q)
            = {| width := width c; height := height c;
                 maxIterations := maxIterations c;
                 centerX := centerX c - (pos_x q - pos_x p) * pixelScale c * (1 # 2);
                 centerY := centerY c - (pos_y q - pos_y p) * pixelScale c * (1 # 2);
                 zoom := zoom c; isPanning := true;
                 lastMousePositionRef := Some q |}) as ->.
    { unfold handleMouseMove. by rewrite Hpan, Hlast. }
    match goal with |- context [run ?r _] => set (c1 := r) end.
    destruct (IH c1 q eq_refl eq_refl) as [HX HY].
    rewrite last_cons_default.
    rewrite HX, HY. subst c1. unfold pixelScale. cbn [centerX centerY zoom width].
    split; ring.
Qed.

(** X11: in exact arithmetic, a pointer-down at [p0] followed by any number
    of moves brings the centre where one move from [p0] to the last position
    brings it: [center - (last - p0) * scale * 0.5] on both axes, with the
    scale [4 / (width * zoom)].  The path of the drag does not matter. *)
Theorem pan_path_independent (c : FractalGenerator Q) (p0 : Vector2d Q)
    (moves : list (Vector2d Q)) :
  let c' := run c (MouseDown (Some p0) :: map (fun q => MouseMove (Some q)) moves) in
  let p := List.last moves p0 in
  centerX c' == centerX c - (pos_x p - pos_x p0) * pixelScale c * (1 # 2)
  /\ centerY c' == centerY c - (pos_y p - pos_y p0) * pixelScale c * (1 # 2).
Proof.
  cbv zeta.
  change (run c (MouseDown (Some p0) :: ?l))
    with (run (handleMouseDown c (Some p0)) l).
  apply (drag_exact moves (handleMouseDown c (Some p0)) p0); reflexivity.
Qed.

(** X12: in exact arithmetic, a drag from [p0] to [p1] moves the point under
    every pixel of the rendering by half the drag, in the scale of the
    renderer on both axes: the picture follows the pointer at half its
    speed (the sensitivity of line 159). *)
Theorem pan_shifts_picture (c : FractalGenerator Q) (p0 p1 : Vector2d Q) (px py : nat) :
  let c' := run c [MouseDown (Some p0); MouseMove (Some p1)] in
  fst (complexUnder c' px py)
  == fst (complexUnder c px py) - (pos_x p1 - pos_x p0) * pixelScale c * (1 # 2)
  /\ snd (complexUnder c' px py)
     == snd (complexUnder c px py) - (pos_y p1 - pos_y p0) * pixelScale c * (1 # 2).
Proof.
  destruct p0 as [x0 y0], p1 as [x1 y1].
  cbv zeta. unfold complexUnder, pixelToComplex, pixelScale.
  cbn [run foldl handle handleMouseDown handleMouseMove isPanning
         lastMousePositionRef centerX centerY zoom width height pos_x pos_y fst snd].
  cbn [add sub mul div of_Z decimal Exact.exact].
  split; ring.
Qed.

(** X13: in exact arithmetic, on a canvas of positive width and at a nonzero
    zoom, the canvas spans [4 / zoom] along the X axis and
    [4 * height / (width * zoom)] along the Y axis, and two neighbouring
    pixels are one scale [4 / (width * zoom)] apart on either axis. *)
Theorem viewport_extent (c : FractalGenerator Q) (px py : nat) :
  (0 < width c)%nat -> ~ zoom c == 0 ->
  fst (complexUnder c (width c) py) - fst (complexUnder c 0 py) == 4 / zoom c
  /\ snd (complexUnder c px (height c)) - snd (complexUnder c px 0)
     == 4 * inject_Z (Z.of_nat (height c)) / (inject_Z (Z.of_nat (width c)) * zoom c)
  /\ fst (complexUnder c (S px) py) - fst (complexUnder c px py) == pixelScale c
  /\ snd (complexUnder c px (S py)) - snd (complexUnder c px py) == pixelScale c.
Proof.
  intros Hw Hz. apply nat_nonzero in Hw.
  unfold complexUnder, pixelToComplex, pixelScale, of_nat.
  cbn [fst snd add sub mul div of_Z decimal Exact.exact].
  rewrite !Nat2Z.inj_succ. unfold Z.succ. rewrite !inject_Z_plus.
  change (inject_Z (Z.of_nat 0)) with 0. change (inject_Z 1) with 1.
  change (inject_Z 4) with 4. change (inject_Z 2) with 2.
  split; [|split; [|split]]; field; auto.
Qed.

Lemma viewport_extent_witness :
  let c := App (T:=Q) in
  fst (complexUnder c (width c) 0) - fst (complexUnder c 0 0) == 4 / zoom c
  /\ snd (complexUnder c 0 (height c)) - snd (complexUnder c 0 0)
     == 4 * inject_Z (Z.of_nat (height c)) / (inject_Z (Z.of_nat (width c)) * zoom c)
  /\ fst (complexUnder c 1 0) - fst (complexUnder c 0 0) == pixelScale c
  /\ snd (complexUnder c 0 1) - snd (complexUnder c 0 0) == pixelScale c.
Proof.
  refine (viewport_extent (App (T:=Q)) 0 0 _ _).
  - unfold App, mount, width. lia.
  - unfold App, mount, zoom. discriminate.
Defined.

(** X14: in exact arithmetic, on a canvas of even width and height, the
    middle pixel [(width / 2, height / 2)] is over the centre of the
    viewport, whatever the zoom. *)
Theorem canvas_center_is_viewport_center (c : FractalGenerator Q) (px py : nat) :
  (2 * px = width c)%nat -> (2 * py = height c)%nat ->
  fst (complexUnder c px py) == centerX c
  /\ snd (complexUnder c px py) == centerY c.
Proof.
  intros Hx Hy.
  unfold complexUnder, pixelToComplex, of_nat.
  rewrite <- Hx, <- Hy. rewrite !Nat2Z.inj_mul, !inject_Z_mult.
  cbn [fst snd add sub mul div of_Z decimal Exact.exact].
  change (inject_Z (Z.of_nat 2)) with 2. change (inject_Z 2) with 2.
  match goal with
  | |- context [inject_Z 4 / ?d] => set (scale := inject_Z 4 / d)
  end.
  split; field.
Qed.

Lemma canvas_center_is_viewport_center_witness :
  fst (complexUnder (App (T:=Q)) 400 300) == centerX (App (T:=Q))
  /\ snd (complexUnder (App (T:=Q)) 400 300) == centerY (App (T:=Q)).
Proof.
  refine (canvas_center_is_viewport_center (App (T:=Q)) 400 300 _ _);
    unfold App, mount, width, height; lia.
Defined.

(** The same pixel on binary64: the two roundings of line 49 leave the X
    coordinate one unit in the last place from the centre. *)
Example canvas_center_binary64 :
  complexUnder (App (T:=float)) 400 300 = (-0.6000000000000001, 0)%float
  /\ centerX (App (T:=float)) = (-0.6)%float.
Proof. vm_compute. split; reflexivity. Qed.

(** X15: in exact arithmetic, on a canvas of even, positive width and
    height, a wheel event with the pointer over the middle pixel changes the
    zoom only: the centre stays, whatever [deltaY]. *)
Theorem zoom_at_canvas_center_keeps_center (c : FractalGenerator Q) (deltaY : Q)
    (px py : nat) :
  (2 * px = width c)%nat -> (2 * py = height c)%nat ->
  (0 < width c)%nat -> (0 < height c)%nat ->
  let c' := handleZoom c deltaY (Some (pointerAt px py)) in
  centerX c' == centerX c /\ centerY c' == centerY c.
Proof.
  intros Hx Hy Hw Hh. cbv zeta.
  pose proof (nat_nonzero px ltac:(lia)) as Hpx.
  pose proof (nat_nonzero py ltac:(lia)) as Hpy.
  unfold handleZoom, pointerAt, of_nat.
  cbn [centerX centerY pos_x pos_y].
  rewrite <- Hx, <- Hy. rewrite !Nat2Z.inj_mul, !inject_Z_mult.
  cbn [add sub mul div of_Z decimal Exact.exact].
  change (inject_Z (Z.of_nat 2)) with 2.
  set (z' := Math_max _ _).
  assert (inject_Z (Z.of_nat px) / (2 * inject_Z (Z.of_nat px)) - (1 # 2) == 0) as ->
    by (field; auto).
  assert (inject_Z (Z.of_nat py) / (2 * inject_Z (Z.of_nat py)) - (1 # 2) == 0) as ->
    by (field; auto).
  split; ring.
Qed.

Lemma zoom_at_canvas_center_keeps_center_witness :
  let c' := handleZoom (App (T:=Q)) (- 100 # 1) (Some (pointerAt 400 300)) in
  centerX c' == centerX (App (T:=Q)) /\ centerY c' == centerY (App (T:=Q)).
Proof.
  refine (zoom_at_canvas_center_keeps_center (App (T:=Q)) (- 100 # 1) 400 300 _ _ _ _);
    unfold App, mount, width, height; lia.
Defined.

End ControllerExact.

(** ** Beyond the claims: the clamp of the zoom on binary64 *)

Section ZoomBinary64.

Import Binary64.

Lemma SFcompare_Eq_finite (x y : spec_float) :
  SFfinite x = true -> SFcompare x y = Some Eq -> x = y.
Proof.
  destruct x as [| | |sx mx ex]; try done. intros _.
  destruct y as [sy|sy| |sy my ey]; simpl; try by destruct sx; try by destruct sy.
  destruct sx, sy; try done;
    destruct (Z.compare_spec ex ey) as [->| |]; try done;
    change (Pos.compare_cont Eq mx my) with (mx ?= my)%positive;
    destruct (Pos.compare_spec mx my) as [->| |]; done.
Qed.

Lemma leb_not_ltb_eq (a b : float) :
  SFfinite (Prim2SF a) = true ->
  PrimFloat.leb a b = true -> PrimFloat.ltb a b = false -> a = b.
Proof.
  rewrite leb_spec, ltb_spec. unfold SFleb, SFltb. intros Ha Hle Hlt.
  apply Prim2SF_inj, SFcompare_Eq_finite; [done|].
  by destruct (SFcompare _ _) as [[]|].
Qed.

Lemma ltb_true_not_nan (a b : float) :
  PrimFloat.ltb a b = true -> is_nan a = false /\ is_nan b = false.
Proof. intros Hlt. by apply leb_true_not_nan, ltb_leb. Qed.

(** Line 122 leaves a number of the zoom range as it is. *)
Lemma clamp_in_range (z : float) :
  zoomInRange z ->
  Math_max (decimal (1 # 100000)) (Math_min (of_Z 1000000) z) = z.
Proof.
  intros [Hlo Hhi]. change (@le float _) with PrimFloat.leb in Hlo, Hhi.
  change (@Math_max float _) with max. change (@Math_min float _) with min.
  set (lo := decimal (1 # 100000)) in *. set (hi := of_Z 1000000) in *.
  destruct (leb_true_not_nan _ _ Hlo) as [Hlo_nan Hz_nan].
  assert (is_nan hi = false) as Hhi_nan by reflexivity.
  assert (min hi z = z) as ->.
  { unfold min. rewrite Hhi_nan, Hz_nan. cbn [orb].
    rewrite (leb_not_ltb _ _ Hhi).
    destruct (PrimFloat.ltb z hi); [done|].
    change (is_neg_zero hi) with false. done. }
  unfold max. rewrite Hlo_nan, Hz_nan. cbn [orb].
  destruct (PrimFloat.ltb lo z) eqn:Hlt; [done|].
  rewrite (leb_not_ltb _ _ Hlo).
  change (is_neg_zero lo) with false. cbv iota.
  by apply leb_not_ltb_eq.
Qed.

(** X16: on binary64, a wheel event with a pointer position whose new zoom
    ([zoom / 1.1] for [deltaY > 0], [zoom * 1.1] otherwise) is within
    [0.00001, 1000000] sets the zoom to exactly that number: the clamp of
    line 122 changes nothing within the bounds. *)
Theorem zoom_unclamped_in_range (c : FractalGenerator float) (deltaY : float)
    (pointerPosition : Vector2d float) :
  let scaleBy := decimal (11 # 10) in
  let c' := handleZoom c deltaY (Some pointerPosition) in
  ((deltaY >? of_Z 0)%num = true -> zoomInRange (zoom c / scaleBy)%num ->
   zoom c' = (zoom c / scaleBy)%num)
  /\ ((deltaY >? of_Z 0)%num = false -> zoomInRange (zoom c * scaleBy)%num ->
      zoom c' = (zoom c * scaleBy)%num).
Proof.
  cbv zeta. unfold handleZoom. cbn [zoom].
  split; intros -> Hrange; by apply clamp_in_range.
Qed.

Lemma zoom_unclamped_in_range_witness :
  let p := pointerAt 10 20 in
  zoom (handleZoom (App (T:=float)) 100%float (Some p)) = (1 / 1.1)%float
  /\ zoom (handleZoom (App (T:=float)) (-100)%float (Some p)) = (1 * 1.1)%float.
Proof.
  destruct (zoom_unclamped_in_range (App (T:=float)) 100%float (pointerAt 10 20))
    as [Hout _].
  destruct (zoom_unclamped_in_range (App (T:=float)) (-100)%float (pointerAt 10 20))
    as [_ Hin].
  split.
  - apply Hout; [reflexivity|]. split; reflexivity.
  - apply Hin; [reflexivity|]. split; reflexivity.
Defined.

Lemma SFltb_below_not_above (z : spec_float) (ma mb : positive) (ea eb : Z) :
  ea < eb ->
  SFltb z (S754_finite false ma ea) = true ->
  SFltb (S754_finite false mb eb) z = false.
Proof.
  intros He. unfold SFltb.
  destruct z as [s|[]| |[] m e]; simpl; try done.
  destruct (Z.compare_spec e ea); destruct (Z.compare_spec eb e); try done; lia.
Qed.

(** X17: on binary64, a wheel event with a pointer position whose new zoom
    is below 0.00001 sets the zoom to 0.00001, and one whose new zoom is
    above 1000000 (infinity included) sets it to 1000000. *)
Theorem zoom_saturates_at_bounds (c : FractalGenerator float) (deltaY : float)
    (pointerPosition : Vector2d float) :
  let scaleBy := decimal (11 # 10) in
  let c' := handleZoom c deltaY (Some pointerPosition) in
  ((deltaY >? of_Z 0)%num = true ->
   (zoom c / scaleBy <? decimal (1 # 100000))%num = true ->
   zoom c' = decimal (1 # 100000))
  /\ ((deltaY >? of_Z 0)%num = false ->
      (of_Z 1000000 <? zoom c * scaleBy)%num = true ->
      zoom c' = of_Z 1000000).
Proof.
  cbv zeta. unfold handleZoom. cbn [zoom].
  change (@Math_max float _) with max. change (@Math_min float _) with min.
  change (@lt float _) with PrimFloat.ltb.
  set (lo := decimal (1 # 100000)). set (hi := of_Z 1000000).
  assert (is_nan lo = false) as Hlo_nan by reflexivity.
  assert (is_nan hi = false) as Hhi_nan by reflexivity.
  split; intros -> Hout.
  - destruct (ltb_true_not_nan _ _ Hout) as [Hnan _].
    set (z := (zoom c / _)%num) in *.
    assert (PrimFloat.ltb hi z = false) as Hhiz.
    { rewrite ltb_spec in Hout |- *.
      destruct (Prim2SF lo) as [| | |[] mlo elo] eqn:Hlo; try done.
      destruct (Prim2SF hi) as [| | |[] mhi ehi] eqn:Hhi; try done.
      vm_compute in Hlo. injection Hlo as <- <-.
      vm_compute in Hhi. injection Hhi as <- <-.
      refine (SFltb_below_not_above _ _ _ _ _ _ Hout). lia. }
    assert (min hi z = z) as ->.
    { unfold min. rewrite Hhi_nan, Hnan, Hhiz. cbn [orb].
      destruct (PrimFloat.ltb z hi); [done|].
      change (is_neg_zero hi) with false. done. }
    unfold max. rewrite Hlo_nan, Hnan. cbn [orb].
    by rewrite (leb_not_ltb _ _ (ltb_leb _ _ Hout)), Hout.
  - destruct (ltb_true_not_nan _ _ Hout) as [_ Hnan].
    set (z := (zoom c * _)%num) in *.
    unfold min at 1. rewrite Hhi_nan, Hnan. cbn [orb]. rewrite Hout.
    reflexivity.
Qed.

Lemma zoom_saturates_at_bounds_witness :
  let c := {| width := 800; height := 600; maxIterations := 100;
              centerX := (-0.6)%float; centerY := 0%float; zoom := 0.00001%float;
              isPanning := false; lastMousePositionRef := None |} in
  let c' := {| width := 800; height := 600; maxIterations := 100;
               centerX := (-0.6)%float; centerY := 0%float; zoom := 1000000%float;
               isPanning := false; lastMousePositionRef := None |} in
  zoom (handleZoom c 1%float (Some (pointerAt 400 300))) = 0.00001%float
  /\ zoom (handleZoom c' 0%float (Some (pointerAt 400 300))) = 1000000%float.
Proof.
  cbv zeta. split.
  - match goal with |- zoom (handleZoom ?c ?d (Some ?p)) = _ =>
      destruct (zoom_saturates_at_bounds c d p) as [Hlow _] end.
    apply Hlow; reflexivity.
  - match goal with |- zoom (handleZoom ?c ?d (Some ?p)) = _ =>
      destruct (zoom_saturates_at_bounds c d p) as [_ Hhigh] end.
    apply Hhigh; reflexivity.
Defined.

End ZoomBinary64.
